(** * cloudbuild-k8s-generator.py: generation and verification of cloudbuild.yaml

    A shallow embedding of [cloudbuild-k8s-generator.py].  The script lists the
    sub-directories of [k8s], sorts them, drops the names of [skiplist], renders
    [CLOUDBUILD_TEMPLATE] with Jinja2 and either writes the result to
    [cloudbuild.yaml] or compares it with the file that is already there.

    Modelling choices:
    - a Python [str] is a [string]; [list.sort()] orders them by character
      code, [==] is equality of strings;
    - the Jinja2 template is kept as its syntax tree ([node]) and rendered by
      an interpreter ([render_node]) for the constructs the template uses:
      text, [{{ e }}], [{% for x in e %}], names, constants and subscripts;
    - a subscript [a[b]] of the template is Jinja2's: the item [b] of [a],
      else the attribute of [a] named [b], else an undefined value, which a
      loop reads as empty;
    - what the Python runtime decides ([getattr] on an object, [str()] of an
      object that is not a text) is a parameter of the development
      ([runtime]); the theorems hold for every runtime;
    - the file system is a finite map from paths to the bytes of the
      regular files, with the listing of [k8s] beside it; a text is the
      sequence of bytes of its UTF-8 form, a name that is not UTF-8 keeping
      its bytes (as [os.listdir] keeps them in surrogates);
    - files are opened in text mode, as by Python 3 on a POSIX system in
      its UTF-8 mode (the mode of the POSIX locale): [read()] decodes UTF-8
      strictly and reads every CR LF and CR as a new line, [write()]
      encodes UTF-8 strictly once [open(..., 'w')] has emptied the file, and
      [open] raises [OSError] where the system refuses it ([may_read],
      [may_write]);
    - [print] does not fail: in that mode the standard output takes every
      text, a name that is not UTF-8 included. *)

From Stdlib Require Import String Ascii NArith Lia.
From stdpp Require Import base option list list_monad sorting gmap strings.

Set Warnings "-register-all".

(** ** Text helpers *)

Definition nl : string := String "010"%char EmptyString.
Definition dq : string := String "034"%char EmptyString.
Definition cr : string := String "013"%char EmptyString.

(** The lines of a text, joined by the newline character. *)
Definition lines (ls : list string) : string := String.concat nl ls.

(** [u''.join(pieces)]. *)
Definition join (pieces : list string) : string := String.concat "" pieces.

(** The ASCII white space that Python's [str.strip()] and Jinja2's [{%-]
    remove. *)
Definition is_space (c : ascii) : bool :=
  match nat_of_ascii c with
  | 9 | 10 | 11 | 12 | 13 | 32 => true
  | _ => false
  end.

Definition is_empty (s : string) : bool :=
  match s with EmptyString => true | String _ _ => false end.

Fixpoint lstrip (s : string) : string :=
  match s with
  | EmptyString => EmptyString
  | String c s' => if is_space c then lstrip s' else s
  end.

Fixpoint rstrip (s : string) : string :=
  match s with
  | EmptyString => EmptyString
  | String c s' =>
      let r := rstrip s' in
      if is_space c && is_empty r then EmptyString else String c r
  end.

(** ** Text files

    What text mode does to the bytes of a file. *)

Definition is_cr (c : ascii) : bool := Nat.eqb (nat_of_ascii c) 13.
Definition is_lf (c : ascii) : bool := Nat.eqb (nat_of_ascii c) 10.

(** Universal new lines: on reading, CR LF and a CR alone become LF. *)
Fixpoint universal_newlines (s : string) : string :=
  match s with
  | EmptyString => EmptyString
  | String c s' =>
      if is_cr c then
        match s' with
        | String c' s'' =>
            if is_lf c' then String c' (universal_newlines s'')
            else String "010"%char (universal_newlines s')
        | EmptyString => String "010"%char EmptyString
        end
      else String c (universal_newlines s')
  end.

Fixpoint no_cr (s : string) : bool :=
  match s with
  | EmptyString => true
  | String c s' => negb (is_cr c) && no_cr s'
  end.

(** The characters of a text that are neither CR nor LF. *)
Fixpoint payload (s : string) : nat :=
  match s with
  | EmptyString => 0
  | String c s' => (if is_cr c || is_lf c then 0 else 1) + payload s'
  end.

Definition between (lo hi : nat) (c : ascii) : bool :=
  (lo <=? nat_of_ascii c) && (nat_of_ascii c <=? hi).

(** The second byte that the first byte of a sequence of three, and of
    four, allows: no overlong form, no surrogate, nothing above U+10FFFF. *)
Definition second_of_three (c0 c1 : ascii) : bool :=
  if Nat.eqb (nat_of_ascii c0) 224 then between 160 191 c1
  else if Nat.eqb (nat_of_ascii c0) 237 then between 128 159 c1
  else between 128 191 c1.

Definition second_of_four (c0 c1 : ascii) : bool :=
  if Nat.eqb (nat_of_ascii c0) 240 then between 144 191 c1
  else if Nat.eqb (nat_of_ascii c0) 244 then between 128 143 c1
  else between 128 191 c1.

(** The bytes that the strict UTF-8 codec decodes, and the texts that it
    encodes. *)
Fixpoint valid_utf8 (s : string) : bool :=
  match s with
  | EmptyString => true
  | String c0 s1 =>
      if nat_of_ascii c0 <? 128 then valid_utf8 s1
      else
        match s1 with
        | EmptyString => false
        | String c1 s2 =>
            if between 194 223 c0 then between 128 191 c1 && valid_utf8 s2
            else
              match s2 with
              | EmptyString => false
              | String c2 s3 =>
                  if between 224 239 c0 then
                    second_of_three c0 c1 && between 128 191 c2 && valid_utf8 s3
                  else
                    match s3 with
                    | EmptyString => false
                    | String c3 s4 =>
                        between 240 244 c0 && second_of_four c0 c1 &&
                        between 128 191 c2 && between 128 191 c3 && valid_utf8 s4
                    end
              end
        end
  end.

(** ** Python values and exceptions *)

Inductive value :=
  | VStr (s : string)
  | VList (l : list value)
  | VDict (d : list (string * value))
  | VOpaque                  (* a bound method, a type, None: no items, no iteration *)
  | VUndefined.              (* jinja2.Undefined *)

Inductive exn :=
  | TypeError
  | UndefinedError
  | OSError
  | UnicodeEncodeError
  | UnicodeDecodeError.

Inductive result (A : Type) :=
  | Ok (a : A)
  | Raise (e : exn).
Arguments Ok {A} a.
Arguments Raise {A} e.

#[global] Instance result_ret : MRet result := λ A, Ok.
#[global] Instance result_bind : MBind result := λ A B f m,
  match m with Ok a => f a | Raise e => Raise e end.
#[global] Instance result_fmap : FMap result := λ A B f m,
  match m with Ok a => Ok (f a) | Raise e => Raise e end.

(** What the Python runtime and the system answer: [getattr(obj, name)]
    ([None] for an AttributeError), [str(obj)] for an object that is neither
    a text nor undefined, and whether [open(path, 'r')] and
    [open(path, 'w')] are let through (not so for a directory, or without
    the permission). *)
Record runtime := {
  py_getattr : value → string → option value;
  py_str : value → string;
  may_read : string → bool;
  may_write : string → bool;
}.

(** [d[k]] on a dict literal. *)
Fixpoint dict_get (d : list (string * value)) (k : string) : option value :=
  match d with
  | [] => None
  | (k', v) :: d' => if String.eqb k k' then Some v else dict_get d' k
  end.

Fixpoint chars (s : string) : list value :=
  match s with
  | EmptyString => []
  | String c s' => VStr (String c EmptyString) :: chars s'
  end.

(** ** The Jinja2 fragment *)

Inductive expr :=
  | Name (x : string)
  | Const (s : string)
  | Getitem (e : expr) (arg : expr).

Inductive node :=
  | TemplateData (data : string)
  | Output (e : expr)
  | For (target : string) (iter : expr) (body : list node).

Section sequence.
Context {A : Type} (f : A → result (list string)).

(** The pieces yielded by [f] on each element in turn; the first exception
    ends the rendering. *)
Fixpoint each (l : list A) : result (list string) :=
  match l with
  | [] => Ok []
  | a :: l' => o ← f a; os ← each l'; Ok (o ++ os)
  end.
End sequence.

Section jinja2.
Context (rt : runtime).

(** [Environment.getitem]: the item, else (for a text argument) the
    attribute of that name, else an undefined value.  Subscripting an
    undefined value raises. *)
Definition getitem (obj arg : value) : result value :=
  match obj with
  | VUndefined => Raise UndefinedError
  | _ =>
      match arg with
      | VStr k =>
          let item := match obj with VDict d => dict_get d k | _ => None end in
          match item with
          | Some v => Ok v
          | None =>
              match py_getattr rt obj k with
              | Some v => Ok v
              | None => Ok VUndefined
              end
          end
      | _ => Ok VUndefined
      end
  end.

(** [for x in v]: a list gives its elements, a text its characters, a dict
    its keys, an undefined value nothing; anything else is not iterable. *)
Definition iterate (v : value) : result (list value) :=
  match v with
  | VList l => Ok l
  | VStr s => Ok (chars s)
  | VDict d => Ok (VStr <$> d.*1)
  | VUndefined => Ok []
  | VOpaque => Raise TypeError
  end.

(** [{{ v }}]: the text itself, nothing for an undefined value. *)
Definition to_string (v : value) : string :=
  match v with
  | VStr s => s
  | VUndefined => ""
  | _ => py_str rt v
  end.

Fixpoint eval (ctx : gmap string value) (e : expr) : result value :=
  match e with
  | Name x => Ok (default VUndefined (ctx !! x))
  | Const s => Ok (VStr s)
  | Getitem e arg => obj ← eval ctx e; a ← eval ctx arg; getitem obj a
  end.

Fixpoint render_node (ctx : gmap string value) (n : node) : result (list string) :=
  match n with
  | TemplateData data => Ok [data]
  | Output e => v ← eval ctx e; Ok [to_string v]
  | For target iter body =>
      v ← eval ctx iter;
      items ← iterate v;
      each (λ item, each (render_node (<[target := item]> ctx)) body) items
  end.

Definition render_nodes (ctx : gmap string value) (ns : list node)
  : result (list string) :=
  each (render_node ctx) ns.

(** [Template(source).render(...)]. *)
Definition Template_render (template : list node) (ctx : gmap string value)
  : result string :=
  join <$> render_nodes ctx template.
End jinja2.

(** ** The template *)

Definition tpl_preamble : string :=
  lines [
    "";
    "# Copyright 2018 Google LLC";
    "#";
    "# Licensed under the Apache License, Version 2.0 (the " +:+ dq +:+ "License" +:+ dq +:+ ");";
    "# you may not use this file except in compliance with the License.";
    "# You may obtain a copy of the License at";
    "#";
    "#      http://www.apache.org/licenses/LICENSE-2.0";
    "#";
    "# Unless required by applicable law or agreed to in writing, software";
    "# distributed under the License is distributed on an " +:+ dq +:+ "AS IS" +:+ dq +:+ " BASIS,";
    "# WITHOUT WARRANTIES OR CONDITIONS OF ANY KIND, either express or implied.";
    "# See the License for the specific language governing permissions and";
    "# limitations under the License.";
    "";
    "##################################################################################";
    "## This file is generated by cloudbuild-k8s-generator.py. Do not manually edit. ##";
    "##################################################################################";
    "";
    "timeout: 1800s # 30m";
    "options:";
    "  machineType: 'N1_HIGHCPU_8'";
    "substitutions:";
    "  _CLUSTER_NAME: cluster-1";
    "  _CLUSTER_LOCATION: us-central1";
    "steps:";
    "";
    "- id: Pull Dev Image";
    "  name: gcr.io/cloud-builders/docker";
    "  dir: k8s";
    "  entrypoint: bash";
    "  args:";
    "  - -exc";
    "  - |";
    "    TAG=" +:+ dq +:+ "$$(cat ./MARKETPLACE_TOOLS_TAG)" +:+ dq;
    "    docker pull " +:+ dq +:+ "gcr.io/cloud-marketplace-tools/k8s/dev:$$TAG" +:+ dq;
    "    docker tag " +:+ dq +:+ "gcr.io/cloud-marketplace-tools/k8s/dev:$$TAG" +:+ dq +:+ " " +:+ dq +:+ "gcr.io/cloud-marketplace-tools/k8s/dev:local" +:+ dq;
    "";
    "- id: Get Kubernetes Credentials";
    "  name: gcr.io/cloud-builders/gcloud";
    "  args:";
    "  - container";
    "  - clusters";
    "  - get-credentials";
    "  - '$_CLUSTER_NAME'";
    "  - --region";
    "  - '$_CLUSTER_LOCATION'";
    "  - --project";
    "  - '$PROJECT_ID'";
    "";
    "- id: Copy kubectl Credentials";
    "  name: gcr.io/google-appengine/debian9";
    "  waitFor:";
    "  - Get Kubernetes Credentials";
    "  entrypoint: bash";
    "  args:";
    "  - -exc";
    "  - |";
    "    mkdir -p /workspace/.kube/";
    "    cp -r $$HOME/.kube/ /workspace/";
    "";
    "- id: Copy gcloud Credentials";
    "  name: gcr.io/google-appengine/debian9";
    "  waitFor:";
    "  - Get Kubernetes Credentials";
    "  entrypoint: bash";
    "  args:";
    "  - -exc";
    "  - |";
    "    mkdir -p /workspace/.config/gcloud/";
    "    cp -r $$HOME/.config/gcloud/ /workspace/.config/";
    "";
    "" ].

Definition tpl_build_id : string :=
  lines [
    "";
    "";
    "- id: Build " ].

Definition tpl_build_env : string :=
  lines [
    "";
    "  name: gcr.io/cloud-marketplace-tools/k8s/dev:local";
    "  env:";
    "  - 'KUBE_CONFIG=/workspace/.kube'";
    "  - 'GCLOUD_CONFIG=/workspace/.config/gcloud'";
    "  # Use local Docker network named cloudbuild as described here:";
    "  # https://cloud.google.com/cloud-build/docs/overview#build_configuration_and_build_steps";
    "  - 'EXTRA_DOCKER_PARAMS=--net cloudbuild'";
    "  dir: k8s/" ].

Definition tpl_build_args : string :=
  lines [
    "";
    "  args:";
    "  - make";
    "  - -j4";
    "  - app/build";
    "";
    "" ].

Definition tpl_verify_id : string :=
  lines [
    "";
    "";
    "- id: Verify " ].

Definition tpl_verify_waitFor : string :=
  lines [
    "";
    "  name: gcr.io/cloud-marketplace-tools/k8s/dev:local";
    "  waitFor:";
    "  - Copy kubectl Credentials";
    "  - Copy gcloud Credentials";
    "  - Pull Dev Image";
    "  - Build " ].

Definition tpl_verify_env : string :=
  lines [
    "";
    "  env:";
    "  - 'KUBE_CONFIG=/workspace/.kube'";
    "  - 'GCLOUD_CONFIG=/workspace/.config/gcloud'";
    "  # Use local Docker network named cloudbuild as described here:";
    "  # https://cloud.google.com/cloud-build/docs/overview#build_configuration_and_build_steps";
    "  - 'EXTRA_DOCKER_PARAMS=--net cloudbuild'";
    "  dir: k8s/" ].

Definition tpl_verify_args : string :=
  lines [
    "";
    "  args:";
    "  - make";
    "  - -j4";
    "  - app/verify";
    "";
    "" ].

Definition tpl_variant_id : string :=
  lines [
    "";
    "";
    "- id: Verify " ].

Definition tpl_variant_open : string :=
  lines [
    " (" ].

Definition tpl_variant_waitFor : string :=
  lines [
    ")";
    "  name: gcr.io/cloud-marketplace-tools/k8s/dev:local";
    "  waitFor:";
    "  - Copy kubectl Credentials";
    "  - Copy gcloud Credentials";
    "  - Pull Dev Image";
    "  - Build " ].

Definition tpl_variant_env : string :=
  lines [
    "";
    "  env:";
    "  - 'KUBE_CONFIG=/workspace/.kube'";
    "  - 'GCLOUD_CONFIG=/workspace/.config/gcloud'";
    "  # Use local Docker network named cloudbuild as described here:";
    "  # https://cloud.google.com/cloud-build/docs/overview#build_configuration_and_build_steps";
    "  - 'EXTRA_DOCKER_PARAMS=--net cloudbuild'";
    "  # Non-default variables.";
    "  " ].

Definition tpl_env_var_open : string :=
  lines [
    "";
    "  - '" ].

Definition tpl_env_var_close : string :=
  lines [
    "'";
    "  " ].

Definition tpl_variant_dir : string :=
  lines [
    "";
    "  dir: k8s/" ].

Definition tpl_variant_args : string :=
  lines [
    "";
    "  args:";
    "  - make";
    "  - -j4";
    "  - app/verify";
    "";
    "" ].

(** [CLOUDBUILD_TEMPLATE], parsed.  The literal is stripped by [.strip()]; a
    tag opened by [{%-] removes the white space that precedes it, so the text
    in front of such a tag is [rstrip]ped and a text of white space only
    (between two tags, and after the last one) disappears. *)
Definition CLOUDBUILD_TEMPLATE : list node :=
  [ TemplateData (rstrip (lstrip tpl_preamble));
    For "solution" (Name "solutions")
      [ TemplateData tpl_build_id; Output (Name "solution");
        TemplateData tpl_build_env; Output (Name "solution");
        TemplateData (rstrip tpl_build_args) ];
    For "solution" (Name "solutions")
      [ TemplateData tpl_verify_id; Output (Name "solution");
        TemplateData tpl_verify_waitFor; Output (Name "solution");
        TemplateData tpl_verify_env; Output (Name "solution");
        TemplateData (rstrip tpl_verify_args);
        For "extra_config" (Getitem (Name "extra_configs") (Name "solution"))
          [ TemplateData tpl_variant_id; Output (Name "solution");
            TemplateData tpl_variant_open;
            Output (Getitem (Name "extra_config") (Const "name"));
            TemplateData tpl_variant_waitFor; Output (Name "solution");
            TemplateData (rstrip tpl_variant_env);
            For "env_var" (Getitem (Name "extra_config") (Const "env_vars"))
              [ TemplateData tpl_env_var_open; Output (Name "env_var");
                TemplateData (rstrip tpl_env_var_close) ];
            TemplateData tpl_variant_dir; Output (Name "solution");
            TemplateData (rstrip tpl_variant_args) ] ] ].

(** ** The script *)

Definition CLOUDBUILD_CONFIG : string := "cloudbuild.yaml".

Definition skiplist : list string :=
  ["elastic-gke-logging"; "elasticsearch"; "spark-operator"].

Definition extra_configs : value :=
  VDict
    [ ("wordpress",
       VList
         [ VDict [ ("name", VStr "Public service and ingress");
                   ("env_vars", VList [VStr "PUBLIC_SERVICE_AND_INGRESS_ENABLED=true"]) ];
           VDict [ ("name", VStr "Prometheus metrics");
                   ("env_vars", VList [VStr "METRICS_EXPORTER_ENABLED=true"]) ] ]) ].

(** The working directory: what [os.listdir('k8s')] returns, in the order the
    system gives it, each name with [os.path.isdir] of it ([None] when [k8s]
    cannot be listed), and the regular files by path. *)
Record filesystem := {
  k8s : option (list (string * bool));
  files : gmap string string;
}.

Inductive status :=
  | Returned                 (* the script ran to its end *)
  | SystemExit (code : Z)    (* os.sys.exit(code) *)
  | Uncaught (e : exn).      (* a traceback *)

Definition exit_code (st : status) : Z :=
  match st with
  | Returned => 0
  | SystemExit code => code
  | Uncaught _ => 1
  end.

Record outcome := {
  out_fs : filesystem;
  out_stdout : list string;
  out_status : status;
}.

(** [[f for f in os.listdir('k8s') if os.path.isdir(os.path.join('k8s', f))]]
    followed by [listdir.sort()], which orders texts by [String.leb]. *)
Definition listdir (entries : list (string * bool)) : list string :=
  merge_sort String.le (filter (λ e, e.2 = true) entries).*1.

(** The loop over [listdir]: the solutions kept and the lines printed. *)
Fixpoint select (names : list string) : list string * list string :=
  match names with
  | [] => ([], [])
  | solution :: rest =>
      let '(kept, printed) := select rest in
      if decide (solution ∈ skiplist)
      then (kept, ("Skipping solution: " +:+ solution) :: printed)
      else (solution :: kept, ("Adding config for solution: " +:+ solution) :: printed)
  end.

Definition solutions_to_build (entries : list (string * bool)) : list string :=
  (select (listdir entries)).1.

(** The context that [render] receives. *)
Definition render_context (solutions : list string) : gmap string value :=
  <["solutions" := VList (VStr <$> solutions)]>
    (<["extra_configs" := extra_configs]> ∅).

Definition cloudbuild_contents (rt : runtime) (solutions : list string)
  : result string :=
  (λ text, text +:+ nl) <$> Template_render rt CLOUDBUILD_TEMPLATE (render_context solutions).

(** [open(path, 'r').read()] on a regular file with these bytes. *)
Definition read_text (rt : runtime) (path on_disk : string) : result string :=
  if may_read rt path then
    if valid_utf8 on_disk then Ok (universal_newlines on_disk)
    else Raise UnicodeDecodeError
  else Raise OSError.

Definition verify_cloudbuild (rt : runtime) (fs : filesystem) (contents : string)
  : result bool :=
  match files fs !! CLOUDBUILD_CONFIG with
  | None => Ok false
  | Some on_disk =>
      text ← read_text rt CLOUDBUILD_CONFIG on_disk;
      Ok (bool_decide (text = contents))
  end.

(** The file system with these bytes in [cloudbuild.yaml]. *)
Definition write_cloudbuild (fs : filesystem) (contents : string) : filesystem :=
  {| k8s := k8s fs; files := <[CLOUDBUILD_CONFIG := contents]> (files fs) |}.

Definition up_to_date : string :=
  "The " +:+ CLOUDBUILD_CONFIG +:+ " file is up-to-date".

Definition not_up_to_date : string :=
  "The " +:+ CLOUDBUILD_CONFIG +:+ " file is not up-to-date. Please re-generate it".

Definition main (rt : runtime) (verify_only : bool) (fs : filesystem) : outcome :=
  match k8s fs with
  | None => {| out_fs := fs; out_stdout := []; out_status := Uncaught OSError |}
  | Some entries =>
      let selected := select (listdir entries) in
      match cloudbuild_contents rt selected.1 with
      | Raise e =>
          {| out_fs := fs; out_stdout := selected.2; out_status := Uncaught e |}
      | Ok contents =>
          if verify_only then
            match verify_cloudbuild rt fs contents with
            | Ok true =>
                {| out_fs := fs;
                   out_stdout := selected.2 ++ [up_to_date];
                   out_status := SystemExit 0 |}
            | Ok false =>
                {| out_fs := fs;
                   out_stdout := selected.2 ++ [not_up_to_date];
                   out_status := SystemExit 1 |}
            | Raise e =>
                {| out_fs := fs; out_stdout := selected.2; out_status := Uncaught e |}
            end
          else if may_write rt CLOUDBUILD_CONFIG then
            (* open(..., 'w') has emptied the file when write() encodes *)
            if valid_utf8 contents then
              {| out_fs := write_cloudbuild fs contents;
                 out_stdout := selected.2;
                 out_status := Returned |}
            else
              {| out_fs := write_cloudbuild fs "";
                 out_stdout := selected.2;
                 out_status := Uncaught UnicodeEncodeError |}
          else
            {| out_fs := fs; out_stdout := selected.2; out_status := Uncaught OSError |}
      end
  end.

(** The value of [cloudbuild_contents] in a run of [main] on a working
    directory. *)
Definition rendered (rt : runtime) (fs : filesystem) : result string :=
  match k8s fs with
  | None => Raise OSError
  | Some entries => cloudbuild_contents rt (solutions_to_build entries)
  end.

(** A runtime in which a dict has its public methods, bound methods being
    opaque objects, nothing else has attributes, and no [open] is refused.
    It leaves out the special attributes (the names in double underscores),
    so it stands for CPython on every other name.  Under it the template
    prints texts only, so [py_str] is never consulted. *)
Definition dict_methods : list string :=
  ["clear"; "copy"; "fromkeys"; "get"; "items"; "keys"; "pop"; "popitem";
   "setdefault"; "update"; "values"].

Definition plain_runtime : runtime :=
  {| py_getattr obj name :=
       match obj with
       | VDict _ => if decide (name ∈ dict_methods) then Some VOpaque else None
       | _ => None
       end;
     py_str _ := "";
     may_read _ := true;
     may_write _ := true |}.

(** CPython gives a dict its special attributes as well; one of them,
    [__doc__], is a text.  A runtime where it is [doc]. *)
Definition documented_runtime (doc : string) : runtime :=
  {| py_getattr obj name :=
       match obj with
       | VDict _ =>
           if String.eqb name "__doc__" then Some (VStr doc)
           else py_getattr plain_runtime obj name
       | _ => None
       end;
     py_str := py_str plain_runtime;
     may_read := may_read plain_runtime;
     may_write := may_write plain_runtime |}.

(** ** The document as a list of steps

    The rendered text read as what it describes: a header and a sequence of
    build steps, each with an id, an image, the ids it waits for and the rest
    of its fields. *)

Definition document_header : string :=
  lines [
    "# Copyright 2018 Google LLC";
    "#";
    "# Licensed under the Apache License, Version 2.0 (the " +:+ dq +:+ "License" +:+ dq +:+ ");";
    "# you may not use this file except in compliance with the License.";
    "# You may obtain a copy of the License at";
    "#";
    "#      http://www.apache.org/licenses/LICENSE-2.0";
    "#";
    "# Unless required by applicable law or agreed to in writing, software";
    "# distributed under the License is distributed on an " +:+ dq +:+ "AS IS" +:+ dq +:+ " BASIS,";
    "# WITHOUT WARRANTIES OR CONDITIONS OF ANY KIND, either express or implied.";
    "# See the License for the specific language governing permissions and";
    "# limitations under the License.";
    "";
    "##################################################################################";
    "## This file is generated by cloudbuild-k8s-generator.py. Do not manually edit. ##";
    "##################################################################################";
    "";
    "timeout: 1800s # 30m";
    "options:";
    "  machineType: 'N1_HIGHCPU_8'";
    "substitutions:";
    "  _CLUSTER_NAME: cluster-1";
    "  _CLUSTER_LOCATION: us-central1";
    "steps:" ].

Definition pull_dev_image_rest : string :=
  lines [
    "";
    "  dir: k8s";
    "  entrypoint: bash";
    "  args:";
    "  - -exc";
    "  - |";
    "    TAG=" +:+ dq +:+ "$$(cat ./MARKETPLACE_TOOLS_TAG)" +:+ dq;
    "    docker pull " +:+ dq +:+ "gcr.io/cloud-marketplace-tools/k8s/dev:$$TAG" +:+ dq;
    "    docker tag " +:+ dq +:+ "gcr.io/cloud-marketplace-tools/k8s/dev:$$TAG" +:+ dq +:+ " " +:+ dq +:+ "gcr.io/cloud-marketplace-tools/k8s/dev:local" +:+ dq ].

Definition get_credentials_rest : string :=
  lines [
    "";
    "  args:";
    "  - container";
    "  - clusters";
    "  - get-credentials";
    "  - '$_CLUSTER_NAME'";
    "  - --region";
    "  - '$_CLUSTER_LOCATION'";
    "  - --project";
    "  - '$PROJECT_ID'" ].

Definition copy_kubectl_rest : string :=
  lines [
    "";
    "  entrypoint: bash";
    "  args:";
    "  - -exc";
    "  - |";
    "    mkdir -p /workspace/.kube/";
    "    cp -r $$HOME/.kube/ /workspace/" ].

Definition copy_gcloud_rest : string :=
  lines [
    "";
    "  entrypoint: bash";
    "  args:";
    "  - -exc";
    "  - |";
    "    mkdir -p /workspace/.config/gcloud/";
    "    cp -r $$HOME/.config/gcloud/ /workspace/.config/" ].

Record variant := {
  variant_name : string;
  variant_env_vars : list string;
}.

Inductive step :=
  | Setup (id image : string) (waitFor : list string) (rest : string)
  | Build (solution : string)
  | Verify (solution : string)
  | VerifyVariant (solution : string) (v : variant).

Definition setup_steps : list step :=
  [ Setup "Pull Dev Image" "gcr.io/cloud-builders/docker" [] pull_dev_image_rest;
    Setup "Get Kubernetes Credentials" "gcr.io/cloud-builders/gcloud" []
      get_credentials_rest;
    Setup "Copy kubectl Credentials" "gcr.io/google-appengine/debian9"
      ["Get Kubernetes Credentials"] copy_kubectl_rest;
    Setup "Copy gcloud Credentials" "gcr.io/google-appengine/debian9"
      ["Get Kubernetes Credentials"] copy_gcloud_rest ].

Definition dev_image : string := "gcr.io/cloud-marketplace-tools/k8s/dev:local".

Definition step_id (st : step) : string :=
  match st with
  | Setup id _ _ _ => id
  | Build solution => "Build " +:+ solution
  | Verify solution => "Verify " +:+ solution
  | VerifyVariant solution v =>
      "Verify " +:+ solution +:+ " (" +:+ variant_name v +:+ ")"
  end.

Definition step_image (st : step) : string :=
  match st with
  | Setup _ image _ _ => image
  | _ => dev_image
  end.

Definition verify_waitFor (solution : string) : list string :=
  [ "Copy kubectl Credentials"; "Copy gcloud Credentials"; "Pull Dev Image";
    "Build " +:+ solution ].

Definition step_waitFor (st : step) : list string :=
  match st with
  | Setup _ _ waitFor _ => waitFor
  | Build _ => []
  | Verify solution => verify_waitFor solution
  | VerifyVariant solution _ => verify_waitFor solution
  end.

(** The [env:] block that Build and Verify steps share. *)
Definition default_env : string :=
  lines [
    "";
    "  env:";
    "  - 'KUBE_CONFIG=/workspace/.kube'";
    "  - 'GCLOUD_CONFIG=/workspace/.config/gcloud'";
    "  # Use local Docker network named cloudbuild as described here:";
    "  # https://cloud.google.com/cloud-build/docs/overview#build_configuration_and_build_steps";
    "  - 'EXTRA_DOCKER_PARAMS=--net cloudbuild'" ].

(** The environment variables of a variant, one list item for each. *)
Definition extra_env (env_vars : list string) : string :=
  lines [""; "  # Non-default variables."] +:+
  join ((λ env_var, lines [""; "  - '"] +:+ env_var +:+ "'") <$> env_vars).

Definition make_in (solution target : string) : string :=
  lines [""; "  dir: k8s/"] +:+ solution +:+
  lines [""; "  args:"; "  - make"; "  - -j4"; "  - app/"] +:+ target.

Definition step_rest (st : step) : string :=
  match st with
  | Setup _ _ _ rest => rest
  | Build solution => default_env +:+ make_in solution "build"
  | Verify solution => default_env +:+ make_in solution "verify"
  | VerifyVariant solution v =>
      default_env +:+ extra_env (variant_env_vars v) +:+ make_in solution "verify"
  end.

Definition waitFor_text (ids : list string) : string :=
  match ids with
  | [] => ""
  | _ => lines [""; "  waitFor:"] +:+ join ((λ id, lines [""; "  - "] +:+ id) <$> ids)
  end.

Definition step_text (st : step) : string :=
  "- id: " +:+ step_id st +:+ lines [""; "  name: "] +:+ step_image st +:+
  waitFor_text (step_waitFor st) +:+ step_rest st.

(** The header, then every step after an empty line. *)
Definition document_text (steps : list step) : string :=
  document_header +:+ join ((λ st, nl +:+ nl +:+ step_text st) <$> steps).

(** The Verify step of a solution and the steps of its variants. *)
Definition verify_block (solution : string) (vs : list variant) : list step :=
  Verify solution :: (VerifyVariant solution <$> vs).

Definition document (solutions : list string) (vss : list (list variant)) : list step :=
  setup_steps ++ (Build <$> solutions) ++ concat (zip_with verify_block solutions vss).

(** The entries of [extra_configs], typed. *)
Definition extra_config_entries : list (string * list variant) :=
  [ ("wordpress",
     [ {| variant_name := "Public service and ingress";
          variant_env_vars := ["PUBLIC_SERVICE_AND_INGRESS_ENABLED=true"] |};
       {| variant_name := "Prometheus metrics";
          variant_env_vars := ["METRICS_EXPORTER_ENABLED=true"] |} ]) ].

Definition variant_value (v : variant) : value :=
  VDict [ ("name", VStr (variant_name v));
          ("env_vars", VList (VStr <$> variant_env_vars v)) ].

Definition entries_value (entries : list (string * list variant)) : value :=
  VDict ((λ e, (e.1, VList (variant_value <$> e.2))) <$> entries).

Fixpoint entries_get (entries : list (string * list variant)) (k : string)
  : option (list variant) :=
  match entries with
  | [] => None
  | (k', vs) :: rest => if String.eqb k k' then Some vs else entries_get rest k
  end.

(** What the template computes for one element of [extra_configs[solution]]
    and for one solution. *)
Definition variant_of (rt : runtime) (item : value) : result variant :=
  name ← getitem rt item (VStr "name");
  ev ← getitem rt item (VStr "env_vars");
  env_vars ← iterate ev;
  Ok {| variant_name := to_string rt name;
        variant_env_vars := to_string rt <$> env_vars |}.

Definition variants_of (rt : runtime) (solution : string) : result (list variant) :=
  v ← getitem rt extra_configs (VStr solution);
  items ← iterate v;
  mapM (variant_of rt) items.

(** The pieces that the template yields for a solution, for a variable of a
    variant, for a variant, and for the whole document. *)
Definition build_pieces (solution : string) : list string :=
  [tpl_build_id; solution; tpl_build_env; solution; rstrip tpl_build_args].

Definition verify_pieces (solution : string) : list string :=
  [ tpl_verify_id; solution; tpl_verify_waitFor; solution; tpl_verify_env;
    solution; rstrip tpl_verify_args ].

Definition env_var_pieces (env_var : string) : list string :=
  [tpl_env_var_open; env_var; rstrip tpl_env_var_close].

Definition variant_pieces (solution : string) (v : variant) : list string :=
  [ tpl_variant_id; solution; tpl_variant_open; variant_name v;
    tpl_variant_waitFor; solution; rstrip tpl_variant_env ] ++
  concat (env_var_pieces <$> variant_env_vars v) ++
  [tpl_variant_dir; solution; rstrip tpl_variant_args].

Definition block_pieces (solution : string) (vs : list variant) : list string :=
  verify_pieces solution ++ concat (variant_pieces solution <$> vs).

Definition template_pieces (solutions : list string) (vss : list (list variant))
  : list string :=
  [rstrip (lstrip tpl_preamble)] ++ concat (build_pieces <$> solutions) ++
  concat (zip_with block_pieces solutions vss).

(** The solution that a step builds or verifies. *)
Definition step_solution (st : step) : option string :=
  match st with
  | Setup _ _ _ _ => None
  | Build solution | Verify solution | VerifyVariant solution _ => Some solution
  end.

(** The solutions of the Verify steps that are not variants, in order. *)
Definition base_verifies (steps : list step) : list string :=
  omap (λ st, match st with Verify solution => Some solution | _ => None end) steps.

Definition is_build (st : step) : bool :=
  match st with Build _ => true | _ => false end.

(** A step list in which every id waited for is the id of an earlier step. *)
Definition waits_resolved (steps : list step) : Prop :=
  ∀ before st after w,
    steps = before ++ st :: after → w ∈ step_waitFor st → w ∈ step_id <$> before.

(** The same, read from the front, with the ids seen so far. *)
Fixpoint resolved_from (seen : list string) (steps : list step) : Prop :=
  match steps with
  | [] => True
  | st :: rest =>
      (∀ w, w ∈ step_waitFor st → w ∈ seen) ∧ resolved_from (seen ++ [step_id st]) rest
  end.

(** The line that the loop of [main] prints for a sub-directory. *)
Definition log_line (solution : string) : string :=
  if decide (solution ∈ skiplist)
  then "Skipping solution: " +:+ solution
  else "Adding config for solution: " +:+ solution.

(** The line that verify mode prints before it exits. *)
Definition status_lines (st : status) : list string :=
  match st with
  | SystemExit 0 => [up_to_date]
  | SystemExit _ => [not_up_to_date]
  | _ => []
  end.

(** A text that is not empty and does not end in white space. *)
Definition ends_clean (s : string) : Prop := s ≠ "" ∧ rstrip s = s.

(** The size of a step, and of a solution with its Build step, its Verify
    step and its variants, in the rendered text, for a way [size] of
    measuring a text: its length, or the number of its characters that are
    neither CR nor LF. *)
Definition step_size (size : string → nat) (st : step) : nat :=
  size (nl +:+ nl +:+ step_text st).

Definition solution_size (size : string → nat) (rt : runtime) (solution : string) : nat :=
  match variants_of rt solution with
  | Ok vs => sum_list_with (step_size size) (Build solution :: verify_block solution vs)
  | Raise _ => 0
  end.

(** ** Texts *)

Lemma append_cons (x : ascii) (a b : string) :
  String x a +:+ b = String x (a +:+ b).
Proof. reflexivity. Qed.

Lemma append_assoc (a b c : string) : (a +:+ b) +:+ c = a +:+ (b +:+ c).
Proof. induction a as [|x a IH]; [done |]. by rewrite !append_cons, IH. Qed.

Lemma append_nil_r (a : string) : a +:+ "" = a.
Proof. induction a as [|x a IH]; [done |]. by rewrite append_cons, IH. Qed.

Lemma join_cons (p : string) (ps : list string) : join (p :: ps) = p +:+ join ps.
Proof.
  unfold join. destruct ps as [|q ps]; simpl; [by rewrite append_nil_r | done].
Qed.

Lemma join_app (ps qs : list string) : join (ps ++ qs) = join ps +:+ join qs.
Proof.
  induction ps as [|p ps IH]; [done |].
  change ((p :: ps) ++ qs) with (p :: (ps ++ qs)).
  by rewrite !join_cons, IH, append_assoc.
Qed.

Lemma preamble_steps :
  rstrip (lstrip tpl_preamble) = document_text setup_steps.
Proof. vm_compute. reflexivity. Qed.

(** ** The interpreter on the template *)

Lemma bind_Ok {A B} (a : A) (f : A → result B) : Ok a ≫= f = f a.
Proof. reflexivity. Qed.

Lemma fmap_Ok {A B} (a : A) (f : A → B) : f <$> Ok a = Ok (f a).
Proof. reflexivity. Qed.

Lemma each_cons {A} (f : A → result (list string)) (a : A) (l : list A) :
  each f (a :: l) = o ← f a; os ← each f l; Ok (o ++ os).
Proof. reflexivity. Qed.

(** A lookup of a literal name in a context built by insertions. *)
Ltac lookup_ctx :=
  repeat first [rewrite lookup_insert_eq | rewrite lookup_insert_ne by done]; done.

Lemma iterate_VList (l : list value) : iterate (VList l) = Ok l.
Proof. reflexivity. Qed.

Section template.
Context (rt : runtime).

Lemma eval_Name ctx x v : ctx !! x = Some v → eval rt ctx (Name x) = Ok v.
Proof. intros Hx. cbn [eval]. by rewrite Hx. Qed.

Lemma eval_Getitem ctx e arg :
  eval rt ctx (Getitem e arg)
  = obj ← eval rt ctx e; a ← eval rt ctx arg; getitem rt obj a.
Proof. reflexivity. Qed.

Lemma render_TemplateData ctx data :
  render_node rt ctx (TemplateData data) = Ok [data].
Proof. reflexivity. Qed.

Lemma render_Output ctx e :
  render_node rt ctx (Output e) = v ← eval rt ctx e; Ok [to_string rt v].
Proof. reflexivity. Qed.

Lemma render_For ctx target iter body :
  render_node rt ctx (For target iter body)
  = v ← eval rt ctx iter; items ← iterate v;
    each (λ item, each (render_node rt (<[target := item]> ctx)) body) items.
Proof. reflexivity. Qed.

Lemma render_Name ctx x v :
  ctx !! x = Some v → render_node rt ctx (Output (Name x)) = Ok [to_string rt v].
Proof. intros Hx. by rewrite render_Output, (eval_Name _ _ v). Qed.

Local Abbreviation env_var_body :=
  [ TemplateData tpl_env_var_open; Output (Name "env_var");
    TemplateData (rstrip tpl_env_var_close) ].

Local Abbreviation variant_body :=
  [ TemplateData tpl_variant_id; Output (Name "solution");
    TemplateData tpl_variant_open;
    Output (Getitem (Name "extra_config") (Const "name"));
    TemplateData tpl_variant_waitFor; Output (Name "solution");
    TemplateData (rstrip tpl_variant_env);
    For "env_var" (Getitem (Name "extra_config") (Const "env_vars")) env_var_body;
    TemplateData tpl_variant_dir; Output (Name "solution");
    TemplateData (rstrip tpl_variant_args) ].

Local Abbreviation verify_body :=
  [ TemplateData tpl_verify_id; Output (Name "solution");
    TemplateData tpl_verify_waitFor; Output (Name "solution");
    TemplateData tpl_verify_env; Output (Name "solution");
    TemplateData (rstrip tpl_verify_args);
    For "extra_config" (Getitem (Name "extra_configs") (Name "solution")) variant_body ].

Local Abbreviation build_body :=
  [ TemplateData tpl_build_id; Output (Name "solution");
    TemplateData tpl_build_env; Output (Name "solution");
    TemplateData (rstrip tpl_build_args) ].

Lemma render_env_vars ctx items :
  each (λ item, each (render_node rt (<["env_var" := item]> ctx)) env_var_body) items
  = Ok (concat (env_var_pieces <$> (to_string rt <$> items))).
Proof.
  induction items as [|item items IH]; [done |].
  rewrite each_cons, IH. cbn [each].
  rewrite (render_Name _ _ item) by apply lookup_insert_eq.
  reflexivity.
Qed.

Lemma render_variant ctx solution item :
  ctx !! "solution" = Some (VStr solution) →
  ctx !! "extra_config" = Some item →
  each (render_node rt ctx) variant_body
  = v ← variant_of rt item; Ok (variant_pieces solution v).
Proof.
  intros Hs Hi. unfold variant_of. cbn [each].
  rewrite !(render_Name _ _ _ Hs), render_Output, render_For, !eval_Getitem.
  rewrite !(eval_Name _ _ _ Hi). cbn [eval]. rewrite !bind_Ok.
  destruct (getitem rt item (VStr "name")) as [name|e]; [|done].
  rewrite !bind_Ok.
  destruct (getitem rt item (VStr "env_vars")) as [ev|e]; [|done].
  rewrite !bind_Ok.
  destruct (iterate ev) as [env_vars|e]; [|done].
  rewrite !bind_Ok, render_env_vars. reflexivity.
Qed.

Lemma render_variants ctx solution items :
  ctx !! "solution" = Some (VStr solution) →
  each (λ item, each (render_node rt (<["extra_config" := item]> ctx)) variant_body)
    items
  = vs ← mapM (variant_of rt) items; Ok (concat (variant_pieces solution <$> vs)).
Proof.
  intros Hs. induction items as [|item items IH]; [done |].
  rewrite each_cons, IH.
  rewrite (render_variant _ solution item)
    by lookup_ctx.
  change (mapM (variant_of rt) (item :: items))
    with (v ← variant_of rt item; vs ← mapM (variant_of rt) items; Ok (v :: vs)).
  destruct (variant_of rt item) as [v|e]; [|done].
  rewrite !bind_Ok.
  destruct (mapM (variant_of rt) items) as [vs|e]; [|done].
  reflexivity.
Qed.

Lemma render_verify ctx solution :
  ctx !! "solution" = Some (VStr solution) →
  ctx !! "extra_configs" = Some extra_configs →
  each (render_node rt ctx) verify_body
  = vs ← variants_of rt solution; Ok (block_pieces solution vs).
Proof.
  intros Hs Hc. unfold variants_of. cbn [each].
  rewrite !(render_Name _ _ _ Hs), render_For, eval_Getitem.
  rewrite (eval_Name _ _ _ Hs), (eval_Name _ _ _ Hc), !bind_Ok.
  destruct (getitem rt extra_configs (VStr solution)) as [v|e]; [|done].
  rewrite !bind_Ok.
  destruct (iterate v) as [items|e]; [|done].
  rewrite !bind_Ok, (render_variants _ solution) by done.
  destruct (mapM (variant_of rt) items) as [vs|e]; [|done].
  rewrite !bind_Ok. unfold block_pieces, verify_pieces. simpl.
  by rewrite app_nil_r.
Qed.

Lemma render_builds ctx solutions :
  each (λ item, each (render_node rt (<["solution" := item]> ctx)) build_body)
    (VStr <$> solutions)
  = Ok (concat (build_pieces <$> solutions)).
Proof.
  induction solutions as [|solution solutions IH]; [done |].
  rewrite fmap_cons, each_cons, IH. cbn [each].
  rewrite !(render_Name _ _ (VStr solution)) by apply lookup_insert_eq.
  reflexivity.
Qed.

Lemma render_verifies ctx solutions :
  ctx !! "extra_configs" = Some extra_configs →
  each (λ item, each (render_node rt (<["solution" := item]> ctx)) verify_body)
    (VStr <$> solutions)
  = vss ← mapM (variants_of rt) solutions;
    Ok (concat (zip_with block_pieces solutions vss)).
Proof.
  intros Hc. induction solutions as [|solution solutions IH]; [done |].
  rewrite fmap_cons, each_cons, IH.
  rewrite (render_verify _ solution)
    by lookup_ctx.
  change (mapM (variants_of rt) (solution :: solutions))
    with (vs ← variants_of rt solution; vss ← mapM (variants_of rt) solutions;
          Ok (vs :: vss)).
  destruct (variants_of rt solution) as [vs|e]; [|done].
  rewrite !bind_Ok.
  destruct (mapM (variants_of rt) solutions) as [vss|e]; [|done].
  reflexivity.
Qed.

(** The interpreter on [CLOUDBUILD_TEMPLATE]: the variants of every
    solution are computed in turn, and the pieces are those of
    [template_pieces]. *)
Lemma render_template solutions :
  render_nodes rt (render_context solutions) CLOUDBUILD_TEMPLATE
  = vss ← mapM (variants_of rt) solutions; Ok (template_pieces solutions vss).
Proof.
  unfold render_nodes, CLOUDBUILD_TEMPLATE, render_context.
  cbn [each]. rewrite render_TemplateData, !render_For.
  rewrite !(eval_Name _ _ (VList (VStr <$> solutions))) by apply lookup_insert_eq.
  repeat (progress (rewrite ?bind_Ok, ?iterate_VList, ?render_builds; cbv beta)).
  rewrite render_verifies by lookup_ctx.
  destruct (mapM (variants_of rt) solutions) as [vss|e]; [|done].
  rewrite !bind_Ok. unfold template_pieces. simpl. by rewrite app_nil_r.
Qed.
End template.

(** ** The pieces as steps *)

(** A step with the empty line in front of it. *)
Local Abbreviation chunk := (λ st : step, nl +:+ nl +:+ step_text st).

Lemma join_build_pieces (solution : string) :
  join (build_pieces solution) = chunk (Build solution).
Proof.
  unfold build_pieces, step_text. rewrite !join_cons.
  cbn [step_id step_image step_waitFor step_rest waitFor_text].
  unfold make_in. rewrite !append_assoc. vm_compute. reflexivity.
Qed.

Lemma join_verify_pieces (solution : string) :
  join (verify_pieces solution) = chunk (Verify solution).
Proof.
  unfold verify_pieces, step_text. rewrite !join_cons.
  cbn [step_id step_image step_waitFor step_rest].
  unfold make_in, verify_waitFor, waitFor_text. cbn [fmap list_fmap].
  rewrite !join_cons, !append_assoc. vm_compute. reflexivity.
Qed.

Lemma join_env_var_pieces (env_vars : list string) :
  join (concat (env_var_pieces <$> env_vars))
  = join ((λ env_var, lines [""; "  - '"] +:+ env_var +:+ "'") <$> env_vars).
Proof.
  induction env_vars as [|env_var env_vars IH]; [done |].
  rewrite !fmap_cons. cbn [concat]. rewrite join_app, IH, (join_cons (_ +:+ _)).
  by f_equal.
Qed.

Lemma join_variant_pieces (solution : string) (v : variant) :
  join (variant_pieces solution v) = chunk (VerifyVariant solution v).
Proof.
  unfold variant_pieces, step_text.
  rewrite <- !app_comm_cons, !join_cons, app_nil_l, join_app, join_env_var_pieces.
  cbn [step_id step_image step_waitFor step_rest].
  unfold make_in, extra_env, verify_waitFor, waitFor_text. cbn [fmap list_fmap].
  rewrite !join_cons, !append_assoc.
  generalize (join ((λ env_var, lines [""; "  - '"] +:+ env_var +:+ "'")
                      <$> variant_env_vars v)).
  generalize (variant_name v). intros name env.
  vm_compute. reflexivity.
Qed.

Lemma join_block_pieces (solution : string) (vs : list variant) :
  join (block_pieces solution vs) = join (chunk <$> verify_block solution vs).
Proof.
  unfold block_pieces, verify_block.
  rewrite join_app, fmap_cons, join_cons, join_verify_pieces. f_equal.
  induction vs as [|v vs IH]; [done |].
  rewrite !fmap_cons. cbn [concat].
  by rewrite join_app, join_cons, join_variant_pieces, IH.
Qed.

Lemma join_blocks (solutions : list string) (vss : list (list variant)) :
  join (concat (zip_with block_pieces solutions vss))
  = join (chunk <$> concat (zip_with verify_block solutions vss)).
Proof.
  revert vss. induction solutions as [|solution solutions IH]; intros [|vs vss];
    try done.
  cbn [zip_with concat].
  by rewrite fmap_app, !join_app, join_block_pieces, IH.
Qed.

Lemma join_builds (solutions : list string) :
  join (concat (build_pieces <$> solutions)) = join (chunk <$> (Build <$> solutions)).
Proof.
  induction solutions as [|solution solutions IH]; [done |].
  rewrite !fmap_cons. cbn [concat].
  by rewrite join_app, join_cons, join_build_pieces, IH.
Qed.

(** The text of the pieces is the text of the document they describe. *)
Lemma join_template_pieces (solutions : list string) (vss : list (list variant)) :
  join (template_pieces solutions vss) = document_text (document solutions vss).
Proof.
  unfold template_pieces, document, document_text.
  rewrite !fmap_app, !join_app, join_builds, join_blocks.
  rewrite <- append_assoc.
  change (join [rstrip (lstrip tpl_preamble)]) with (rstrip (lstrip tpl_preamble) +:+ "").
  by rewrite append_nil_r, preamble_steps.
Qed.

(** ** The rendered document *)

(** [cloudbuild_contents] computes the variants of every solution in turn;
    when none of them raises, the text is that of [document], with a new line
    at its end. *)
Theorem cloudbuild_contents_document (rt : runtime) (solutions : list string) :
  cloudbuild_contents rt solutions
  = vss ← mapM (variants_of rt) solutions;
    Ok (document_text (document solutions vss) +:+ nl).
Proof.
  unfold cloudbuild_contents, Template_render. rewrite render_template.
  destruct (mapM (variants_of rt) solutions) as [vss|e]; [|done].
  rewrite bind_Ok, !fmap_Ok. by rewrite join_template_pieces.
Qed.

Lemma mapM_Ok_length {A B} (f : A → result B) (l : list A) (k : list B) :
  mapM f l = Ok k → length k = length l.
Proof.
  revert k. induction l as [|a l IH]; intros k.
  - by intros [= <-].
  - change (mapM f (a :: l)) with (b ← f a; k' ← mapM f l; Ok (b :: k')).
    destruct (f a) as [b|e]; [|done]. rewrite bind_Ok.
    destruct (mapM f l) as [k'|e]; [|done]. rewrite bind_Ok.
    intros [= <-]. simpl. by rewrite (IH k').
Qed.

Lemma mapM_Ok_lookup {A B} (f : A → result B) (l : list A) (k : list B) i a :
  mapM f l = Ok k → l !! i = Some a → ∃ b, k !! i = Some b ∧ f a = Ok b.
Proof.
  revert k i. induction l as [|a' l IH]; intros k i; [done |].
  change (mapM f (a' :: l)) with (b ← f a'; k' ← mapM f l; Ok (b :: k')).
  destruct (f a') as [b|e] eqn:Hb; [|done]. rewrite bind_Ok.
  destruct (mapM f l) as [k'|e]; [|done]. rewrite bind_Ok.
  intros [= <-]. destruct i as [|i]; simpl.
  - intros [= <-]. eauto.
  - intros Hi. by apply (IH k').
Qed.

Lemma cloudbuild_contents_Ok (rt : runtime) (solutions : list string) (text : string) :
  cloudbuild_contents rt solutions = Ok text →
  ∃ vss, mapM (variants_of rt) solutions = Ok vss ∧
         length vss = length solutions ∧
         text = document_text (document solutions vss) +:+ nl.
Proof.
  rewrite cloudbuild_contents_document.
  destruct (mapM (variants_of rt) solutions) as [vss|e] eqn:Hvss; [|done].
  rewrite bind_Ok. intros [= <-]. exists vss. split_and!; [done | | done].
  by apply mapM_Ok_length in Hvss.
Qed.

(** ** Discovery *)

Lemma select_filter (names : list string) :
  (select names).1 = filter (λ n, n ∉ skiplist) names.
Proof.
  induction names as [|n names IH]; [done |].
  cbn [select]. destruct (select names) as [kept printed]. simpl in IH. subst kept.
  destruct (decide (n ∈ skiplist)) as [Hin|Hout]; simpl.
  - by rewrite filter_cons_False by (by intros []).
  - by rewrite filter_cons_True.
Qed.

Lemma StronglySorted_filter {A} (R : relation A) (P : A → Prop)
    `{∀ x, Decision (P x)} (l : list A) :
  StronglySorted R l → StronglySorted R (filter P l).
Proof.
  induction 1 as [|x l Hl IH Hx]; [constructor |].
  rewrite filter_cons. destruct (decide (P x)); [|done].
  constructor; [done |].
  apply Forall_forall. intros y [_ Hy]%list_elem_of_filter.
  by apply (proj1 (Forall_forall _ _) Hx).
Qed.

Lemma step_solution_document (solutions : list string) (vss : list (list variant))
    (st : step) (n : string) :
  st ∈ document solutions vss → step_solution st = Some n → n ∈ solutions.
Proof.
  unfold document. rewrite !elem_of_app. intros [Hst|[Hst|Hst]] Hn.
  - unfold setup_steps in Hst. rewrite !elem_of_cons, elem_of_nil in Hst.
    destruct Hst as [->|[->|[->|[->|[]]]]]; discriminate.
  - apply list_elem_of_fmap in Hst as (s & -> & Hs). by injection Hn as <-.
  - revert vss Hst.
    induction solutions as [|s solutions IH]; intros [|vs vss]; cbn [zip_with concat];
      try by rewrite elem_of_nil.
    rewrite elem_of_app, elem_of_cons. unfold verify_block at 1.
    rewrite elem_of_cons, list_elem_of_fmap.
    intros [[->|(v & -> & _)]|Hst]; [left; by injection Hn.. | right; eauto].
Qed.

(** ** Runs of [main] *)

Lemma main_raise (rt : runtime) (verify_only : bool) (fs : filesystem) (e : exn) :
  rendered rt fs = Raise e →
  out_fs (main rt verify_only fs) = fs ∧
  out_status (main rt verify_only fs) = Uncaught e.
Proof.
  unfold rendered, main, solutions_to_build.
  destruct (k8s fs) as [entries|]; [|by intros [= <-]].
  cbv zeta. by intros ->.
Qed.

Lemma main_write (rt : runtime) (fs : filesystem) (text : string) :
  rendered rt fs = Ok text →
  out_fs (main rt false fs)
    = (if may_write rt CLOUDBUILD_CONFIG
       then write_cloudbuild fs (if valid_utf8 text then text else "")
       else fs) ∧
  out_status (main rt false fs)
    = (if may_write rt CLOUDBUILD_CONFIG
       then if valid_utf8 text then Returned else Uncaught UnicodeEncodeError
       else Uncaught OSError).
Proof.
  unfold rendered, main, solutions_to_build.
  destruct (k8s fs) as [entries|]; [|done].
  cbv zeta. intros ->.
  by destruct (may_write rt CLOUDBUILD_CONFIG), (valid_utf8 text).
Qed.

Lemma main_verify (rt : runtime) (fs : filesystem) (text : string) :
  rendered rt fs = Ok text →
  out_fs (main rt true fs) = fs ∧
  out_status (main rt true fs)
    = match verify_cloudbuild rt fs text with
      | Ok true => SystemExit 0
      | Ok false => SystemExit 1
      | Raise e => Uncaught e
      end ∧
  ∀ verdict, verify_cloudbuild rt fs text = Ok verdict →
    last (out_stdout (main rt true fs))
    = Some (if verdict then up_to_date else not_up_to_date).
Proof.
  unfold rendered, main, solutions_to_build.
  destruct (k8s fs) as [entries|]; [|done].
  cbv zeta. intros ->.
  destruct (verify_cloudbuild rt fs text) as [[|]|e];
    cbn [out_fs out_status out_stdout]; split_and!; try done;
    intros verdict [= <-]; by rewrite last_snoc.
Qed.

(** C1. The solutions that [main] renders are the sub-directories of [k8s],
    plain files left out, sorted in ascending order, without the names of the
    skip list: [listdir] is the sorted rearrangement of the directory names,
    the solutions are what remains of it once the skip-listed names are
    filtered out, in the same order, and no step of a rendered document
    builds or verifies a skip-listed name. *)
Theorem C1_solutions_sorted_without_skiplist (entries : list (string * bool)) :
  let D := (filter (λ e, e.2 = true) entries).*1 in
  let solutions := solutions_to_build entries in
  StronglySorted String.le (listdir entries) ∧ listdir entries ≡ₚ D ∧
  solutions = filter (λ n, n ∉ skiplist) (listdir entries) ∧
  StronglySorted String.le solutions ∧
  (∀ n, n ∈ solutions ↔ n ∈ D ∧ n ∉ skiplist) ∧
  (∀ rt files, rendered rt {| k8s := Some entries; files := files |}
               = cloudbuild_contents rt solutions) ∧
  (∀ rt text, cloudbuild_contents rt solutions = Ok text →
     ∃ vss, text = document_text (document solutions vss) +:+ nl ∧
            ∀ st n, st ∈ document solutions vss → step_solution st = Some n →
                    n ∈ solutions ∧ n ∉ skiplist).
Proof.
  intros D solutions.
  assert (Hsel : solutions = filter (λ n, n ∉ skiplist) (listdir entries))
    by apply select_filter.
  assert (Hsorted : StronglySorted String.le (listdir entries))
    by apply (StronglySorted_merge_sort _).
  assert (Hperm : listdir entries ≡ₚ D) by apply merge_sort_Permutation.
  assert (Hmem : ∀ n, n ∈ solutions ↔ n ∈ D ∧ n ∉ skiplist).
  { intros n. rewrite Hsel, list_elem_of_filter, Hperm. tauto. }
  split_and!; try done.
  - rewrite Hsel. by apply StronglySorted_filter.
  - intros rt text (vss & _ & _ & ->)%cloudbuild_contents_Ok.
    exists vss. split; [done |]. intros st n Hst Hn.
    assert (n ∈ solutions) as Hin by (by eapply step_solution_document).
    split; [done |]. by apply Hmem.
Qed.

(** The scenario of the specification: [wordpress], [spark-operator] and
    [redis], with a plain file beside them. *)
Example solutions_scenario :
  solutions_to_build
    [("wordpress", true); ("spark-operator", true); ("README.md", false); ("redis", true)]
  = ["redis"; "wordpress"].
Proof. vm_compute. reflexivity. Qed.

(** ** Reading in text mode *)

Lemma is_cr_not_lf (c : ascii) : is_cr c = true → is_lf c = false.
Proof.
  unfold is_cr, is_lf. intros ->%Nat.eqb_eq. reflexivity.
Qed.

(** A text without CR is read as it is. *)
Lemma universal_newlines_no_cr (s : string) :
  no_cr s = true → universal_newlines s = s.
Proof.
  induction s as [|c s IH]; [done |]. cbn [no_cr universal_newlines].
  intros [Hc Hs]%andb_prop. apply negb_true_iff in Hc. rewrite Hc.
  by rewrite IH.
Qed.

(** And only such a text is. *)
Lemma universal_newlines_fixed (s : string) :
  universal_newlines s = s → no_cr s = true.
Proof.
  induction s as [|c s IH]; [done |]. cbn [no_cr universal_newlines].
  destruct (is_cr c) eqn:Hc.
  - pose proof (is_cr_not_lf c Hc) as Hlf. destruct s as [|c' s].
    + intros [= <-]. by vm_compute in Hc.
    + destruct (is_lf c') eqn:Hc'.
      * intros [= <- _]. congruence.
      * intros [= <- _]. by vm_compute in Hc.
  - intros [= H]. by rewrite IH.
Qed.

Lemma payload_append (a b : string) : payload (a +:+ b) = payload a + payload b.
Proof.
  induction a as [|c a IH]; [done |]. rewrite append_cons. cbn [payload].
  rewrite IH. lia.
Qed.

(** Reading rewrites CR and LF only. *)
Lemma payload_universal_newlines (s : string) :
  payload (universal_newlines s) = payload s.
Proof.
  induction s as [|c s IH]; [done |]. cbn [universal_newlines].
  destruct (is_cr c) eqn:Hc.
  - cbn [payload]. rewrite Hc. cbn [orb]. destruct s as [|c' s]; [done |].
    destruct (is_lf c') eqn:Hc'.
    + cbn [universal_newlines] in IH.
      destruct (is_cr c') eqn:Hcr; [by rewrite (is_cr_not_lf c' Hcr) in Hc' |].
      exact IH.
    + change (payload (String "010"%char (universal_newlines (String c' s))))
        with (payload (universal_newlines (String c' s))).
      exact IH.
  - cbn [payload]. by rewrite IH.
Qed.

(** ** Verification against the file on disk *)

Lemma verify_cloudbuild_true (rt : runtime) (fs : filesystem) (text : string) :
  verify_cloudbuild rt fs text = Ok true ↔
  ∃ on_disk, files fs !! CLOUDBUILD_CONFIG = Some on_disk ∧
             may_read rt CLOUDBUILD_CONFIG = true ∧
             valid_utf8 on_disk = true ∧
             universal_newlines on_disk = text.
Proof.
  unfold verify_cloudbuild, read_text.
  destruct (files fs !! CLOUDBUILD_CONFIG) as [on_disk|].
  - destruct (may_read rt CLOUDBUILD_CONFIG) eqn:Hre,
      (valid_utf8 on_disk) eqn:Hva; rewrite ?bind_Ok;
      (split; [| intros (d & [= <-] & ? & ? & ?)]); try done; try congruence.
    + intros [= H]. apply bool_decide_eq_true in H. exists on_disk. by split_and!.
    + do 2 f_equal. by apply bool_decide_eq_true.
  - split; [done |]. by intros (d & [=] & _).
Qed.

(** C2 (as stated: the comparison is byte for byte).  A copy of the rendered
    text whose last line ends in CR LF is a different sequence of bytes, and
    verify mode finds it up to date. *)
Lemma C2_byte_exact_counterexample :
  let text := rstrip (lstrip tpl_preamble) +:+ nl in
  let copy := rstrip (lstrip tpl_preamble) +:+ cr +:+ nl in
  let fs := {| k8s := Some []; files := {[ CLOUDBUILD_CONFIG := copy ]} |} in
  rendered plain_runtime fs = Ok text ∧
  files fs !! CLOUDBUILD_CONFIG = Some copy ∧
  bool_decide (copy = text) = false ∧
  out_status (main plain_runtime true fs) = SystemExit 0.
Proof. vm_compute. split_and!; reflexivity. Qed.

(** C2 (amended).  Verify mode compares texts, not bytes: it exits with 0
    exactly when [cloudbuild.yaml] is a regular file that can be opened and
    decoded and whose text, every CR LF and CR read as a new line, is the
    text just rendered.  Given a rendered text: a missing file, or a file
    whose text differs, is reported as not up to date, with exit status 1; a
    file that cannot be opened or decoded ends the run with the exception
    and no verdict.  On a file without CR the comparison is exact. *)
Theorem C2_verify_text_comparison (rt : runtime) (fs : filesystem) :
  let run := main rt true fs in
  (exit_code (out_status run) = 0%Z ↔
     ∃ text on_disk,
       rendered rt fs = Ok text ∧ files fs !! CLOUDBUILD_CONFIG = Some on_disk ∧
       may_read rt CLOUDBUILD_CONFIG = true ∧ valid_utf8 on_disk = true ∧
       universal_newlines on_disk = text) ∧
  (∀ text, rendered rt fs = Ok text →
     (files fs !! CLOUDBUILD_CONFIG = None →
        out_status run = SystemExit 1 ∧ last (out_stdout run) = Some not_up_to_date) ∧
     ∀ on_disk, files fs !! CLOUDBUILD_CONFIG = Some on_disk →
       (may_read rt CLOUDBUILD_CONFIG = false → out_status run = Uncaught OSError) ∧
       (may_read rt CLOUDBUILD_CONFIG = true → valid_utf8 on_disk = false →
          out_status run = Uncaught UnicodeDecodeError) ∧
       (may_read rt CLOUDBUILD_CONFIG = true → valid_utf8 on_disk = true →
          (universal_newlines on_disk = text →
             out_status run = SystemExit 0 ∧
             last (out_stdout run) = Some up_to_date) ∧
          (universal_newlines on_disk ≠ text →
             out_status run = SystemExit 1 ∧
             last (out_stdout run) = Some not_up_to_date))) ∧
  (∀ on_disk, no_cr on_disk = true → universal_newlines on_disk = on_disk).
Proof.
  intros run. subst run. split_and!; [| | apply universal_newlines_no_cr].
  - destruct (rendered rt fs) as [text|e] eqn:Hr.
    + destruct (main_verify rt fs text Hr) as (_ & -> & _).
      destruct (verify_cloudbuild rt fs text) as [[|]|e] eqn:Hv; cbn [exit_code].
      * apply verify_cloudbuild_true in Hv as (on_disk & Hf & Hre & Hva & Hu).
        split; [|done]. intros _. exists text, on_disk. by split_and!.
      * split; [done |]. intros (text' & on_disk & [= <-] & H).
        assert (verify_cloudbuild rt fs text = Ok true) as Hv'
          by (apply verify_cloudbuild_true; exists on_disk; tauto).
        congruence.
      * split; [done |]. intros (text' & on_disk & [= <-] & H).
        assert (verify_cloudbuild rt fs text = Ok true) as Hv'
          by (apply verify_cloudbuild_true; exists on_disk; tauto).
        congruence.
    + destruct (main_raise rt true fs e Hr) as (_ & ->). cbn [exit_code].
      split; [done |]. by intros (text & on_disk & [=] & _).
  - intros text Hr. destruct (main_verify rt fs text Hr) as (_ & -> & Hlast).
    unfold verify_cloudbuild, read_text in *. split.
    + intros Hf. rewrite Hf in *. split; [done |]. by apply (Hlast false).
    + intros on_disk Hf. rewrite Hf in *. split_and!.
      * by intros ->.
      * by intros -> ->.
      * intros Hre Hva. rewrite Hre, Hva, bind_Ok in *. split.
        -- intros Heq. rewrite bool_decide_eq_true_2 in * by done.
           split; [done |]. by apply (Hlast true).
        -- intros Hne. rewrite bool_decide_eq_false_2 in * by done.
           split; [done |]. by apply (Hlast false).
Qed.

(** A file that differs from the rendered text by one trailing blank is not
    up to date. *)
Lemma verify_trailing_blank (rt : runtime) (fs : filesystem) (text : string) :
  rendered rt fs = Ok text →
  files fs !! CLOUDBUILD_CONFIG = Some (text +:+ " ") →
  may_read rt CLOUDBUILD_CONFIG = true → valid_utf8 (text +:+ " ") = true →
  out_status (main rt true fs) = SystemExit 1.
Proof.
  intros Hr Hf Hre Hva. destruct (main_verify rt fs text Hr) as (_ & -> & _).
  unfold verify_cloudbuild, read_text. rewrite Hf, Hre, Hva, bind_Ok.
  rewrite bool_decide_eq_false_2; [done |].
  intros Heq. apply (f_equal payload) in Heq.
  rewrite payload_universal_newlines, payload_append in Heq.
  change (payload " ") with 1 in Heq. lia.
Qed.

(** C9. Verify mode leaves the file system as it found it, whatever the run
    ends with. *)
Theorem C9_verify_mode_reads_only (rt : runtime) (fs : filesystem) :
  out_fs (main rt true fs) = fs.
Proof.
  destruct (rendered rt fs) as [text|e] eqn:Hr.
  - by destruct (main_verify rt fs text Hr) as (-> & _).
  - by destruct (main_raise rt true fs e Hr) as (-> & _).
Qed.

(** ** Write mode, then verify mode *)

(** C5. A sub-directory whose name holds a carriage return: write mode runs
    to its end and writes the name as it is; verify mode, right after, reads
    the carriage return as a new line, finds another text than the one it
    renders, prints that the file is not up to date and exits with 1. *)
Theorem C5_carriage_return_not_up_to_date :
  let fs := {| k8s := Some [("a" +:+ cr +:+ "b", true)]; files := ∅ |} in
  let written := out_fs (main plain_runtime false fs) in
  solutions_to_build [("a" +:+ cr +:+ "b", true)] = ["a" +:+ cr +:+ "b"] ∧
  out_status (main plain_runtime false fs) = Returned ∧
  Ok <$> files written !! CLOUDBUILD_CONFIG = Some (rendered plain_runtime fs) ∧
  out_status (main plain_runtime true written) = SystemExit 1 ∧
  last (out_stdout (main plain_runtime true written)) = Some not_up_to_date.
Proof. vm_compute. split_and!; reflexivity. Qed.

(** ** A root without sub-directories *)

Lemma filter_plain_files (plain : list string) :
  filter (λ e : string * bool, e.2 = true) ((λ f, (f, false)) <$> plain) = [].
Proof.
  induction plain as [|f plain IH]; [done |].
  rewrite fmap_cons, filter_cons_False; done.
Qed.

(** C7. With no sub-directory under [k8s] (plain files or nothing), no
    solution is selected, the rendered text is the preamble of the template
    followed by a new line, and its steps are the four setup steps: there is
    no Build and no Verify step.  Write mode leaves that text in
    [cloudbuild.yaml], unless the system refuses to open the file, and then
    it changes nothing. *)
Theorem C7_empty_root (rt : runtime) (plain : list string) (fls : gmap string string) :
  let entries := (λ f, (f, false)) <$> plain in
  let fs := {| k8s := Some entries; files := fls |} in
  solutions_to_build entries = [] ∧
  rendered rt fs = Ok (rstrip (lstrip tpl_preamble) +:+ nl) ∧
  rstrip (lstrip tpl_preamble) = document_text (document [] []) ∧
  document [] [] = setup_steps ∧
  Forall (λ st, step_solution st = None) setup_steps ∧
  out_fs (main rt false fs)
    = (if may_write rt CLOUDBUILD_CONFIG
       then write_cloudbuild fs (rstrip (lstrip tpl_preamble) +:+ nl)
       else fs).
Proof.
  intros entries fs.
  assert (Hs : solutions_to_build entries = []).
  { unfold solutions_to_build, listdir, entries. by rewrite filter_plain_files. }
  assert (Hr : rendered rt fs = Ok (rstrip (lstrip tpl_preamble) +:+ nl)).
  { unfold rendered, fs. cbn [k8s]. rewrite Hs, cloudbuild_contents_document.
    cbn [mapM]. rewrite bind_Ok. by rewrite preamble_steps. }
  split_and!; [done | done | apply preamble_steps | done | repeat constructor |].
  destruct (main_write rt fs _ Hr) as (-> & _).
  replace (valid_utf8 (rstrip (lstrip tpl_preamble) +:+ nl)) with true
    by (vm_compute; reflexivity).
  reflexivity.
Qed.

(** ** Determinism *)

Lemma listdir_Permutation (entries1 entries2 : list (string * bool)) :
  entries1 ≡ₚ entries2 → listdir entries1 = listdir entries2.
Proof.
  intros Hp. unfold listdir.
  apply (StronglySorted_unique String.le);
    [apply (StronglySorted_merge_sort _).. |].
  by rewrite !merge_sort_Permutation, Hp.
Qed.

(** C8. The rendered text is a function of the contents of [k8s] and of the
    static configuration: two listings of the same entries, in whatever order
    the system returns them, select the same solutions and render the same
    text, and the two runs print the same lines, end with the same status and
    leave the same files. *)
Theorem C8_rendering_deterministic (rt : runtime) (verify_only : bool)
    (entries1 entries2 : list (string * bool)) (fls : gmap string string) :
  entries1 ≡ₚ entries2 →
  let fs1 := {| k8s := Some entries1; files := fls |} in
  let fs2 := {| k8s := Some entries2; files := fls |} in
  solutions_to_build entries1 = solutions_to_build entries2 ∧
  rendered rt fs1 = rendered rt fs2 ∧
  out_stdout (main rt verify_only fs1) = out_stdout (main rt verify_only fs2) ∧
  out_status (main rt verify_only fs1) = out_status (main rt verify_only fs2) ∧
  files (out_fs (main rt verify_only fs1)) = files (out_fs (main rt verify_only fs2)).
Proof.
  intros Hp%listdir_Permutation fs1 fs2.
  assert (Hs : solutions_to_build entries1 = solutions_to_build entries2)
    by (unfold solutions_to_build; by rewrite Hp).
  split; [done |].
  split; [unfold rendered, fs1, fs2; cbn [k8s]; by rewrite Hs |].
  unfold main, fs1, fs2. cbn [k8s]. cbv zeta. rewrite Hp.
  destruct (cloudbuild_contents rt (select (listdir entries2)).1) as [text|e];
    [|done].
  destruct verify_only.
  - unfold verify_cloudbuild. cbn [files].
    destruct (fls !! CLOUDBUILD_CONFIG) as [on_disk|]; [|done].
    destruct (read_text rt CLOUDBUILD_CONFIG on_disk) as [t|e]; [|done].
    rewrite bind_Ok. by case_bool_decide.
  - by destruct (may_write rt CLOUDBUILD_CONFIG), (valid_utf8 text).
Qed.

Lemma C8_rendering_deterministic_witness :
  [("wordpress", true); ("redis", true)] ≡ₚ [("redis", true); ("wordpress", true)] ∧
  rendered plain_runtime
    {| k8s := Some [("wordpress", true); ("redis", true)]; files := ∅ |}
  = rendered plain_runtime
      {| k8s := Some [("redis", true); ("wordpress", true)]; files := ∅ |}.
Proof.
  assert (H : [("wordpress", true); ("redis", true)]
              ≡ₚ [("redis", true); ("wordpress", true)]) by apply perm_swap.
  exact (conj H (proj1 (proj2
    (C8_rendering_deterministic plain_runtime false _ _ ∅ H)))).
Defined.

(** ** The variants of a solution *)

Lemma extra_configs_entries : extra_configs = entries_value extra_config_entries.
Proof. reflexivity. Qed.

Lemma dict_get_entries (entries : list (string * list variant)) (k : string) :
  dict_get ((λ e, (e.1, VList (variant_value <$> e.2))) <$> entries) k
  = (λ vs, VList (variant_value <$> vs)) <$> entries_get entries k.
Proof.
  induction entries as [|[k' vs] entries IH]; [done |].
  rewrite fmap_cons. cbn [dict_get entries_get fst snd].
  by destruct (String.eqb k k').
Qed.

Section variants.
Context (rt : runtime).

Lemma variant_of_value (v : variant) : variant_of rt (variant_value v) = Ok v.
Proof.
  destruct v as [name env_vars]. unfold variant_of, variant_value.
  cbn. rewrite <- list_fmap_compose.
  replace (to_string rt ∘ VStr) with (@id string) by done.
  by rewrite list_fmap_id.
Qed.

Lemma variants_of_values (vs : list variant) :
  mapM (variant_of rt) (variant_value <$> vs) = Ok vs.
Proof.
  induction vs as [|v vs IH]; [done |].
  rewrite fmap_cons.
  change (mapM (variant_of rt) (variant_value v :: (variant_value <$> vs)))
    with (x ← variant_of rt (variant_value v);
          xs ← mapM (variant_of rt) (variant_value <$> vs); Ok (x :: xs)).
  by rewrite variant_of_value, IH.
Qed.

(** A solution with an entry in [extra_configs] gets the variants of that
    entry. *)
Lemma variants_of_configured (solution : string) (cfgs : list variant) :
  entries_get extra_config_entries solution = Some cfgs →
  variants_of rt solution = Ok cfgs.
Proof.
  intros Hget. unfold variants_of. rewrite extra_configs_entries.
  unfold entries_value, getitem. rewrite dict_get_entries, Hget.
  cbn [fmap option_fmap option_map]. rewrite bind_Ok, iterate_VList, bind_Ok.
  apply variants_of_values.
Qed.

(** A solution without an entry, whose name is no attribute of the dict
    either, gets no variant. *)
Lemma variants_of_missing (solution : string) :
  entries_get extra_config_entries solution = None →
  py_getattr rt extra_configs solution = None →
  variants_of rt solution = Ok [].
Proof.
  intros Hget Hattr. unfold variants_of. rewrite extra_configs_entries in *.
  unfold entries_value, getitem in *. rewrite dict_get_entries, Hget.
  cbn [fmap option_fmap option_map]. by rewrite Hattr.
Qed.

(** A solution without an entry, whose name is the name of a method of the
    dict, ends the rendering: a bound method cannot be iterated. *)
Lemma variants_of_method (solution : string) :
  entries_get extra_config_entries solution = None →
  py_getattr rt extra_configs solution = Some VOpaque →
  variants_of rt solution = Raise TypeError.
Proof.
  intros Hget Hattr. unfold variants_of. rewrite extra_configs_entries in *.
  unfold entries_value, getitem in *. rewrite dict_get_entries, Hget.
  cbn [fmap option_fmap option_map]. by rewrite Hattr.
Qed.
End variants.

(** ** The order of the steps *)

Lemma verify_phase_split (solutions : list string) (vss : list (list variant))
    (i : nat) (solution : string) (vs : list variant) :
  solutions !! i = Some solution → vss !! i = Some vs →
  concat (zip_with verify_block solutions vss)
  = concat (zip_with verify_block (take i solutions) (take i vss)) ++
    verify_block solution vs ++
    concat (zip_with verify_block (drop (S i) solutions) (drop (S i) vss)).
Proof.
  revert solutions vss.
  induction i as [|i IH]; intros [|s solutions] [|vs' vss]; try done.
  - by intros [= ->] [= ->].
  - cbn [lookup list_lookup take drop zip_with concat]. intros Hs Hv.
    by rewrite (IH _ _ Hs Hv), <- app_assoc.
Qed.

Lemma verify_phase_head (solutions : list string) (vss : list (list variant)) :
  concat (zip_with verify_block solutions vss) = [] ∨
  ∃ next rest, concat (zip_with verify_block solutions vss) = Verify next :: rest.
Proof.
  destruct solutions as [|s solutions], vss as [|vs vss]; cbn [zip_with concat]; eauto.
Qed.

(** C3. For a solution with an entry of N variants in [extra_configs], the
    rendered document has, right after the Verify step of the solution, N more
    Verify steps and then the Verify step of the next solution or the end.
    The k-th of them carries the name of the solution and the display name
    of the k-th variant in its id, and lists the environment variables of
    that variant after the three default ones. *)
Theorem C3_variant_steps (rt : runtime) (solutions : list string) (text : string) :
  cloudbuild_contents rt solutions = Ok text →
  ∃ vss, length vss = length solutions ∧
    text = document_text (document solutions vss) +:+ nl ∧
    ∀ i solution cfgs,
      solutions !! i = Some solution →
      entries_get extra_config_entries solution = Some cfgs →
      vss !! i = Some cfgs ∧
      (∃ before after,
         document solutions vss
         = before ++ Verify solution :: (VerifyVariant solution <$> cfgs) ++ after ∧
         length (VerifyVariant solution <$> cfgs) = length cfgs ∧
         (after = [] ∨ ∃ next rest, after = Verify next :: rest)) ∧
      ∀ v, v ∈ cfgs →
        step_id (VerifyVariant solution v)
          = "Verify " +:+ solution +:+ " (" +:+ variant_name v +:+ ")" ∧
        step_waitFor (VerifyVariant solution v) = step_waitFor (Verify solution) ∧
        step_rest (VerifyVariant solution v)
          = default_env +:+ extra_env (variant_env_vars v) +:+
            make_in solution "verify".
Proof.
  intros (vss & Hvss & Hlen & ->)%cloudbuild_contents_Ok.
  exists vss. split_and!; [done | done |].
  intros i solution cfgs Hi Hget.
  destruct (mapM_Ok_lookup _ _ _ _ _ Hvss Hi) as (vs & Hvs & Hof).
  rewrite (variants_of_configured rt solution cfgs Hget) in Hof.
  injection Hof as <-. split_and!; [done | | done].
  exists (setup_steps ++ (Build <$> solutions) ++
          concat (zip_with verify_block (take i solutions) (take i vss))),
         (concat (zip_with verify_block (drop (S i) solutions) (drop (S i) vss))).
  split_and!.
  - unfold document. rewrite (verify_phase_split _ _ _ _ _ Hi Hvs).
    unfold verify_block. rewrite <- !app_assoc. reflexivity.
  - apply length_fmap.
  - apply verify_phase_head.
Qed.

Lemma C3_variant_steps_witness :
  cloudbuild_contents plain_runtime ["redis"; "wordpress"]
  = Ok (document_text
          (document ["redis"; "wordpress"]
             [[]; default [] (entries_get extra_config_entries "wordpress")]) +:+ nl) ∧
  ∃ vss, length vss = 2 ∧
         vss !! 1 = entries_get extra_config_entries "wordpress".
Proof.
  assert (H : cloudbuild_contents plain_runtime ["redis"; "wordpress"]
              = Ok (document_text
                      (document ["redis"; "wordpress"]
                         [[]; default [] (entries_get extra_config_entries "wordpress")])
                    +:+ nl)) by (vm_compute; reflexivity).
  split; [exact H |].
  destruct (C3_variant_steps plain_runtime _ _ H) as (vss & Hlen & _ & Hv).
  exists vss. split; [exact Hlen |].
  symmetry. exact (eq_sym (proj1 (Hv 1 "wordpress" _ eq_refl eq_refl))).
Defined.

(** ** Solutions without an entry in [extra_configs] *)

(** When no solution has an entry, and no name is an attribute of the dict,
    every solution gets its Build and its Verify step and nothing more. *)
Lemma cloudbuild_contents_no_entry (rt : runtime) (solutions : list string) :
  (∀ s, s ∈ solutions →
        entries_get extra_config_entries s = None ∧
        py_getattr rt extra_configs s = None) →
  cloudbuild_contents rt solutions
  = Ok (document_text (document solutions ((λ _, []) <$> solutions)) +:+ nl).
Proof.
  intros Hall. rewrite cloudbuild_contents_document.
  assert (Hm : mapM (variants_of rt) solutions = Ok ((λ _, []) <$> solutions)).
  { induction solutions as [|s solutions IH]; [done |].
    change (mapM (variants_of rt) (s :: solutions))
      with (vs ← variants_of rt s; vss ← mapM (variants_of rt) solutions;
            Ok (vs :: vss)).
    destruct (Hall s) as [Hget Hattr]; [left |].
    rewrite (variants_of_missing rt s Hget Hattr), IH; [done |].
    intros s' Hs'. apply Hall. by right. }
  by rewrite Hm.
Qed.

(** C4. A sub-directory named after a method of the dict ([keys]) has no
    entry in [extra_configs], and the rendering does not get past it: the
    subscript finds the bound method, the loop over it raises, and [main]
    ends with the exception, nothing written. *)
Theorem C4_method_name_raises :
  let fs := {| k8s := Some [("keys", true)]; files := ∅ |} in
  entries_get extra_config_entries "keys" = None ∧
  solutions_to_build [("keys", true)] = ["keys"] ∧
  cloudbuild_contents plain_runtime ["keys"] = Raise TypeError ∧
  out_status (main plain_runtime false fs) = Uncaught TypeError ∧
  out_fs (main plain_runtime false fs) = fs.
Proof. vm_compute. split_and!; reflexivity. Qed.

(** The same directory beside others: the whole rendering is lost. *)
Example method_name_among_others :
  cloudbuild_contents plain_runtime ["keys"; "redis"; "wordpress"] = Raise TypeError.
Proof. vm_compute. reflexivity. Qed.

(** ** Two phases *)

Lemma base_verifies_block (solution : string) (vs : list variant) :
  base_verifies (verify_block solution vs) = [solution].
Proof.
  unfold verify_block, base_verifies. cbn [omap list_omap]. f_equal.
  induction vs as [|v vs IH]; [done |]. by rewrite fmap_cons.
Qed.

Lemma base_verifies_phase (solutions : list string) (vss : list (list variant)) :
  length vss = length solutions →
  base_verifies (concat (zip_with verify_block solutions vss)) = solutions.
Proof.
  revert vss. induction solutions as [|s solutions IH]; intros [|vs vss] Hlen;
    try done.
  cbn [zip_with concat]. unfold base_verifies in *.
  rewrite omap_app. fold (base_verifies (verify_block s vs)).
  rewrite base_verifies_block, IH; [done |]. by injection Hlen.
Qed.

Lemma verify_phase_steps (solutions : list string) (vss : list (list variant))
    (st : step) :
  st ∈ concat (zip_with verify_block solutions vss) →
  ∃ s, s ∈ solutions ∧ (st = Verify s ∨ ∃ v, st = VerifyVariant s v).
Proof.
  revert vss. induction solutions as [|s solutions IH]; intros [|vs vss];
    cbn [zip_with concat]; try by rewrite elem_of_nil.
  rewrite elem_of_app. unfold verify_block at 1.
  rewrite elem_of_cons, list_elem_of_fmap.
  intros [[->|(v & -> & _)]|Hst].
  - exists s. split; [left | eauto].
  - exists s. split; [left | eauto].
  - destruct (IH _ Hst) as (s' & Hs' & H). exists s'. split; [by right | done].
Qed.

(** C6. The steps of a rendered document come in two phases after the four
    setup steps: the Build steps of the solutions, in the order of the
    solutions, and after all of them the Verify steps.  The second phase
    holds no Build step; its Verify steps that are not variants are those of
    the solutions, one each, in the same order; the Verify step of a solution
    waits for the two steps that copy the credentials, for the image, and for
    the Build step of that solution. *)
Theorem C6_two_phases (rt : runtime) (solutions : list string) (text : string) :
  cloudbuild_contents rt solutions = Ok text →
  ∃ vss, length vss = length solutions ∧
    let phase := concat (zip_with verify_block solutions vss) in
    text = document_text (setup_steps ++ (Build <$> solutions) ++ phase) +:+ nl ∧
    Forall (λ st, is_build st = false) (setup_steps ++ phase) ∧
    base_verifies phase = solutions ∧
    (∀ st, st ∈ phase → ∃ s, s ∈ solutions ∧ step_solution st = Some s ∧
                             step_waitFor st = step_waitFor (Verify s)) ∧
    ∀ s, step_waitFor (Verify s)
         = [ "Copy kubectl Credentials"; "Copy gcloud Credentials"; "Pull Dev Image";
             step_id (Build s) ].
Proof.
  intros (vss & _ & Hlen & ->)%cloudbuild_contents_Ok.
  exists vss. split; [done |]. intros phase.
  split_and!; [done | | by apply base_verifies_phase | | done].
  - apply Forall_app. split; [by repeat constructor |].
    apply Forall_forall. intros st Hst.
    by destruct (verify_phase_steps _ _ _ Hst) as (s & _ & [->|[v ->]]).
  - intros st Hst.
    destruct (verify_phase_steps _ _ _ Hst) as (s & Hs & [->|[v ->]]); eauto.
Qed.

Lemma C6_two_phases_witness :
  cloudbuild_contents plain_runtime ["redis"; "wordpress"]
  = Ok (document_text
          (document ["redis"; "wordpress"]
             [[]; default [] (entries_get extra_config_entries "wordpress")]) +:+ nl) ∧
  ∃ vss, length vss = 2 ∧
         base_verifies (concat (zip_with verify_block ["redis"; "wordpress"] vss))
         = ["redis"; "wordpress"].
Proof.
  assert (H : cloudbuild_contents plain_runtime ["redis"; "wordpress"]
              = Ok (document_text
                      (document ["redis"; "wordpress"]
                         [[]; default [] (entries_get extra_config_entries "wordpress")])
                    +:+ nl)) by (vm_compute; reflexivity).
  split; [exact H |].
  destruct (C6_two_phases plain_runtime _ _ H) as (vss & Hlen & _ & _ & Hb & _).
  exists vss. exact (conj Hlen Hb).
Defined.

(** ** The ids that steps wait for *)

(** Membership of a literal in a literal list. *)
Ltac in_list :=
  cbn [fmap list_fmap setup_steps step_id app];
  repeat first [apply list_elem_of_here | apply list_elem_of_further].

(** A hypothesis of membership in a literal list, case by case. *)
Ltac case_in H :=
  repeat (apply elem_of_cons in H as [->|H]); [.. | by apply elem_of_nil in H].

Lemma resolved_from_mono (seen seen' : list string) (steps : list step) :
  (∀ w, w ∈ seen → w ∈ seen') → resolved_from seen steps → resolved_from seen' steps.
Proof.
  revert seen seen'. induction steps as [|st steps IH]; intros seen seen' Hsub; [done |].
  cbn [resolved_from]. intros [Hst Hrest]. split; [by auto |].
  apply (IH (seen ++ [step_id st])); [|done].
  intros w. rewrite !elem_of_app. intros [?|?]; auto.
Qed.

Lemma resolved_from_Forall (seen : list string) (steps : list step) :
  Forall (λ st, ∀ w, w ∈ step_waitFor st → w ∈ seen) steps →
  resolved_from seen steps.
Proof.
  induction 1 as [|st steps Hst _ IH]; [done |].
  cbn [resolved_from]. split; [done |].
  apply (resolved_from_mono seen); [|done].
  intros w Hw. apply elem_of_app. by left.
Qed.

Lemma resolved_from_app (seen : list string) (steps1 steps2 : list step) :
  resolved_from seen steps1 →
  resolved_from (seen ++ (step_id <$> steps1)) steps2 →
  resolved_from seen (steps1 ++ steps2).
Proof.
  revert seen. induction steps1 as [|st steps1 IH]; intros seen.
  - cbn [fmap list_fmap]. by rewrite app_nil_r.
  - rewrite fmap_cons. cbn [resolved_from app]. intros [Hst H1] H2.
    split; [done |]. apply IH; [done |].
    by rewrite <- app_assoc.
Qed.

Lemma resolved_from_waits (seen : list string) (before : list step)
    (st : step) (after : list step) (w : string) :
  resolved_from seen (before ++ st :: after) → w ∈ step_waitFor st →
  w ∈ seen ++ (step_id <$> before).
Proof.
  revert seen. induction before as [|st' before IH]; intros seen.
  - cbn [app resolved_from fmap list_fmap]. rewrite app_nil_r. intros [Hst _]. auto.
  - cbn [app resolved_from]. intros [_ Hrest] Hw. rewrite fmap_cons.
    specialize (IH _ Hrest Hw). by rewrite <- app_assoc in IH.
Qed.

Lemma resolved_setup_steps : resolved_from [] setup_steps.
Proof.
  cbn [resolved_from setup_steps step_waitFor step_id app].
  split_and!; try done; intros w Hw; try (by apply elem_of_nil in Hw);
    case_in Hw; in_list.
Qed.

Lemma resolved_document (solutions : list string) (vss : list (list variant)) :
  resolved_from [] (document solutions vss).
Proof.
  unfold document.
  apply resolved_from_app; [apply resolved_setup_steps |].
  apply resolved_from_app.
  - apply resolved_from_Forall, Forall_forall.
    intros st (s & -> & _)%list_elem_of_fmap w. cbn [step_waitFor].
    by rewrite elem_of_nil.
  - apply resolved_from_Forall, Forall_forall. intros st Hst w Hw.
    destruct (verify_phase_steps _ _ _ Hst) as (s & Hs & Hkind).
    assert (Hw' : w ∈ verify_waitFor s) by (by destruct Hkind as [->|[v ->]]).
    unfold verify_waitFor in Hw'. rewrite !elem_of_cons, elem_of_nil in Hw'.
    rewrite !elem_of_app.
    destruct Hw' as [->|[->|[->|[->|[]]]]].
    + left. right. in_list.
    + left. right. in_list.
    + left. right. in_list.
    + right. apply list_elem_of_fmap. exists (Build s). split; [done |].
      by apply list_elem_of_fmap_2.
Qed.

(** C10. In a rendered document, every id that a step waits for is the id of
    a step that stands before it; and an id waited for is one of the four
    setup ids or the id of the Build step of a rendered solution. *)
Theorem C10_waitFor_resolved (rt : runtime) (solutions : list string) (text : string) :
  cloudbuild_contents rt solutions = Ok text →
  ∃ vss, text = document_text (document solutions vss) +:+ nl ∧
    waits_resolved (document solutions vss) ∧
    ∀ st w, st ∈ document solutions vss → w ∈ step_waitFor st →
      w ∈ [ "Get Kubernetes Credentials"; "Copy kubectl Credentials";
            "Copy gcloud Credentials"; "Pull Dev Image" ] ∨
      ∃ s, s ∈ solutions ∧ w = step_id (Build s).
Proof.
  intros (vss & _ & _ & ->)%cloudbuild_contents_Ok.
  exists vss. split_and!; [done | |].
  - intros before st after w Hdoc Hw.
    pose proof (resolved_document solutions vss) as Hres. rewrite Hdoc in Hres.
    by apply (resolved_from_waits [] before st after w Hres).
  - intros st w. unfold document. rewrite !elem_of_app.
    intros [Hst|[Hst|Hst]] Hw.
    + left. unfold setup_steps in Hst. rewrite !elem_of_cons, elem_of_nil in Hst.
      destruct Hst as [->|[->|[->|[->|[]]]]]; cbn [step_waitFor] in Hw;
        try (by apply elem_of_nil in Hw); case_in Hw; in_list.
    + apply list_elem_of_fmap in Hst as (s & -> & _). cbn [step_waitFor] in Hw.
      by apply elem_of_nil in Hw.
    + destruct (verify_phase_steps _ _ _ Hst) as (s & Hs & Hkind).
      assert (Hw' : w ∈ verify_waitFor s) by (by destruct Hkind as [->|[v ->]]).
      unfold verify_waitFor in Hw'. rewrite !elem_of_cons, elem_of_nil in Hw'.
      destruct Hw' as [->|[->|[->|[->|[]]]]]; [left; in_list.. |].
      right. eauto.
Qed.

Lemma C10_waitFor_resolved_witness :
  cloudbuild_contents plain_runtime ["redis"; "wordpress"]
  = Ok (document_text
          (document ["redis"; "wordpress"]
             [[]; default [] (entries_get extra_config_entries "wordpress")]) +:+ nl) ∧
  ∃ vss, waits_resolved (document ["redis"; "wordpress"] vss).
Proof.
  assert (H : cloudbuild_contents plain_runtime ["redis"; "wordpress"]
              = Ok (document_text
                      (document ["redis"; "wordpress"]
                         [[]; default [] (entries_get extra_config_entries "wordpress")])
                    +:+ nl)) by (vm_compute; reflexivity).
  split; [exact H |].
  destruct (C10_waitFor_resolved plain_runtime _ _ H) as (vss & _ & Hw & _).
  exists vss. exact Hw.
Defined.

(** ** Runs that fail, and what write mode touches *)













Lemma main_write_eq (rt : runtime) (fs : filesystem) (text : string)
    (entries : list (string * bool)) :
  k8s fs = Some entries →
  cloudbuild_contents rt (solutions_to_build entries) = Ok text →
  main rt false fs
  = if may_write rt CLOUDBUILD_CONFIG
    then {| out_fs := write_cloudbuild fs (if valid_utf8 text then text else "");
            out_stdout := (select (listdir entries)).2;
            out_status := if valid_utf8 text then Returned
                          else Uncaught UnicodeEncodeError |}
    else {| out_fs := fs;
            out_stdout := (select (listdir entries)).2;
            out_status := Uncaught OSError |}.
Proof.
  unfold main, solutions_to_build. intros -> Hr. cbv zeta. rewrite Hr.
  by destruct (may_write rt CLOUDBUILD_CONFIG), (valid_utf8 text).
Qed.

(** X4. Write mode is idempotent: run on the file system that a first run
    left, it leaves the same file system, prints the same lines and ends with
    the same status. *)
Theorem X4_write_mode_idempotent (rt : runtime) (fs : filesystem) :
  let once := main rt false fs in
  let twice := main rt false (out_fs once) in
  out_fs twice = out_fs once ∧
  out_stdout twice = out_stdout once ∧
  out_status twice = out_status once.
Proof.
  intros once twice. subst once twice.
  destruct (rendered rt fs) as [text|e] eqn:Hr.
  - unfold rendered in Hr. destruct (k8s fs) as [entries|] eqn:Hk; [|done].
    rewrite (main_write_eq rt fs text entries Hk Hr).
    destruct (may_write rt CLOUDBUILD_CONFIG) eqn:Hw; cbn [out_fs].
    + rewrite (main_write_eq rt (write_cloudbuild fs _) text entries Hk Hr), Hw.
      cbn [out_fs out_stdout out_status]. split_and!; [|done..].
      unfold write_cloudbuild. cbn [k8s files]. f_equal. apply insert_insert_eq.
    + by rewrite (main_write_eq rt fs text entries Hk Hr), Hw.
  - destruct (main_raise rt false fs e Hr) as (Hfs & _). by rewrite !Hfs.
Qed.

(** X5. After write mode has run to its end, [cloudbuild.yaml] holds the
    rendered text, and verify mode, where it may read the file, finds it up
    to date exactly when the text holds no carriage return: it exits with 0
    then, and with 1, reporting the file as not up to date, when some name
    holds one. *)
Theorem X5_write_then_verify (rt : runtime) (fs : filesystem) :
  out_status (main rt false fs) = Returned →
  may_read rt CLOUDBUILD_CONFIG = true →
  ∃ text,
    rendered rt fs = Ok text ∧
    files (out_fs (main rt false fs)) !! CLOUDBUILD_CONFIG = Some text ∧
    out_status (main rt true (out_fs (main rt false fs)))
      = SystemExit (if no_cr text then 0 else 1) ∧
    last (out_stdout (main rt true (out_fs (main rt false fs))))
      = Some (if no_cr text then up_to_date else not_up_to_date).
Proof.
  intros Hst Hre. destruct (rendered rt fs) as [text|e] eqn:Hr.
  2: { destruct (main_raise rt false fs e Hr) as (_ & Hst'). congruence. }
  destruct (main_write rt fs text Hr) as (Hfs & Hst'). rewrite Hst in Hst'.
  destruct (may_write rt CLOUDBUILD_CONFIG); [|done].
  destruct (valid_utf8 text) eqn:Hva; [|done].
  rewrite Hfs. exists text. split; [done |].
  split; [apply lookup_insert_eq |].
  assert (Hr' : rendered rt (write_cloudbuild fs text) = Ok text) by done.
  destruct (main_verify rt _ text Hr') as (_ & -> & Hlast).
  assert (Hv : verify_cloudbuild rt (write_cloudbuild fs text) text
               = Ok (no_cr text)).
  { unfold verify_cloudbuild, read_text. cbn [write_cloudbuild files].
    rewrite lookup_insert_eq, Hre, Hva, bind_Ok. f_equal.
    destruct (no_cr text) eqn:Hcr.
    - apply bool_decide_eq_true. by apply universal_newlines_no_cr.
    - apply bool_decide_eq_false. intros H%universal_newlines_fixed. congruence. }
  rewrite Hv. split; [by destruct (no_cr text) |]. by apply Hlast.
Qed.

Lemma X5_write_then_verify_witness :
  let fs := {| k8s := Some [("redis", true)]; files := ∅ |} in
  out_status (main plain_runtime false fs) = Returned ∧
  may_read plain_runtime CLOUDBUILD_CONFIG = true ∧
  ∃ text, rendered plain_runtime fs = Ok text ∧
          files (out_fs (main plain_runtime false fs)) !! CLOUDBUILD_CONFIG
          = Some text.
Proof.
  intros fs.
  assert (H : out_status (main plain_runtime false fs) = Returned)
    by (vm_compute; reflexivity).
  split; [exact H |]. split; [reflexivity |].
  destruct (X5_write_then_verify plain_runtime fs H eq_refl)
    as (text & Hr & Hf & _).
  exists text. exact (conj Hr Hf).
Defined.

(** ** What is printed *)

Lemma select_printed (names : list string) : (select names).2 = log_line <$> names.
Proof.
  induction names as [|n names IH]; [done |].
  cbn [select]. destruct (select names) as [kept printed]. simpl in IH. subst printed.
  rewrite fmap_cons.
  destruct (decide (n ∈ skiplist)) as [H|H] eqn:Hd; cbn [snd]; f_equal;
    unfold log_line; by rewrite Hd.
Qed.

(** X8. Once [k8s] is listed, a run prints one line for each sub-directory,
    in sorted order, skip-listed or not, also when the rendering then fails;
    verify mode adds one line, the verdict, and write mode adds none. *)
Theorem X8_printed_lines (rt : runtime) (verify_only : bool)
    (entries : list (string * bool)) (fls : gmap string string) :
  let run := main rt verify_only {| k8s := Some entries; files := fls |} in
  out_stdout run = (log_line <$> listdir entries) ++ status_lines (out_status run) ∧
  length (log_line <$> listdir entries)
    = length (filter (λ e : string * bool, e.2 = true) entries) ∧
  (verify_only = false → status_lines (out_status run) = []).
Proof.
  intros run. subst run. unfold main. cbn [k8s]. cbv zeta.
  rewrite select_printed. split_and!.
  - destruct (cloudbuild_contents rt _) as [text|e];
      [|by rewrite app_nil_r].
    destruct verify_only.
    + destruct (verify_cloudbuild rt _ text) as [[|]|e]; [done.. |].
      by rewrite app_nil_r.
    + destruct (may_write rt CLOUDBUILD_CONFIG); [|by rewrite app_nil_r].
      destruct (valid_utf8 text); by rewrite app_nil_r.
  - unfold listdir.
    by rewrite length_fmap, merge_sort_Permutation, length_fmap.
  - intros ->. destruct (cloudbuild_contents rt _) as [text|e]; [|done].
    destruct (may_write rt CLOUDBUILD_CONFIG); [|done].
    by destruct (valid_utf8 text).
Qed.

(** ** Distinct names, distinct steps *)

Lemma NoDup_directories (entries : list (string * bool)) :
  NoDup entries.*1 → NoDup (filter (λ e : string * bool, e.2 = true) entries).*1.
Proof.
  induction entries as [|[n d] entries IH]; [done |].
  rewrite fmap_cons, NoDup_cons. cbn [fst]. intros [Hn Hnd]. rewrite filter_cons.
  destruct (decide ((n, d).2 = true)); [|by auto].
  rewrite fmap_cons, NoDup_cons. cbn [fst]. split; [|by auto].
  intros (x & Hx & [_ Hin]%list_elem_of_filter)%list_elem_of_fmap.
  apply Hn. apply list_elem_of_fmap. by exists x.
Qed.

Lemma NoDup_solutions (entries : list (string * bool)) :
  NoDup entries.*1 → NoDup (solutions_to_build entries).
Proof.
  intros Hnd%NoDup_directories. unfold solutions_to_build.
  rewrite select_filter. apply NoDup_filter. unfold listdir.
  by rewrite merge_sort_Permutation.
Qed.

Lemma NoDup_prefixed (prefix : string) (names : list string) :
  NoDup names → NoDup ((λ s, prefix +:+ s) <$> names).
Proof. apply (NoDup_fmap_2 (String.app prefix)). Qed.

(** X7. The names of a directory being distinct, the solutions are distinct,
    and so are the ids of the setup steps, of the Build steps and of the
    Verify steps of the solutions, all together. *)
Theorem X7_distinct_step_ids (entries : list (string * bool)) :
  NoDup entries.*1 →
  let solutions := solutions_to_build entries in
  NoDup solutions ∧
  NoDup (step_id <$> (setup_steps ++ (Build <$> solutions) ++ (Verify <$> solutions))).
Proof.
  intros Hnd%NoDup_solutions solutions. split; [done |].
  fold solutions in Hnd. rewrite !fmap_app, <- !list_fmap_compose.
  apply NoDup_app. split_and!.
  - cbn. repeat (apply NoDup_cons; split; [by rewrite ?elem_of_cons, elem_of_nil;
      intros H; repeat destruct H as [H|H] |]). apply NoDup_nil_2.
  - intros w Hw [Hb|Hv]%elem_of_app.
    + apply list_elem_of_fmap in Hb as (s & -> & _).
      cbn in Hw. rewrite !elem_of_cons, elem_of_nil in Hw.
      by repeat destruct Hw as [Hw|Hw].
    + apply list_elem_of_fmap in Hv as (s & -> & _).
      cbn in Hw. rewrite !elem_of_cons, elem_of_nil in Hw.
      by repeat destruct Hw as [Hw|Hw].
  - apply NoDup_app. split_and!.
    + by apply (NoDup_prefixed "Build ").
    + intros w (s & -> & _)%list_elem_of_fmap (s' & Heq & _)%list_elem_of_fmap.
      by cbn in Heq.
    + by apply (NoDup_prefixed "Verify ").
Qed.

Lemma X7_distinct_step_ids_witness :
  NoDup [("redis", true); ("wordpress", true)].*1 ∧
  NoDup (solutions_to_build [("redis", true); ("wordpress", true)]).
Proof.
  assert (H : NoDup [("redis", true); ("wordpress", true)].*1)
    by (apply (bool_decide_unpack _); vm_compute; exact I).
  exact (conj H (proj1 (X7_distinct_step_ids _ H))).
Defined.

(** The id of a variant step is not covered: a sub-directory can bear the
    name that makes it the id of its own Verify step. *)
Example variant_id_collision :
  step_id (Verify "wordpress (Prometheus metrics)")
  = step_id (VerifyVariant "wordpress"
               {| variant_name := "Prometheus metrics";
                  variant_env_vars := ["METRICS_EXPORTER_ENABLED=true"] |}).
Proof. reflexivity. Qed.

(** ** When the rendering succeeds *)

Lemma mapM_cases {A B} (f : A → result B) (l : list A) (e : exn) :
  (∀ a, a ∈ l → (∃ b, f a = Ok b) ∨ f a = Raise e) →
  (∃ k, mapM f l = Ok k) ∧ (∀ a, a ∈ l → ∃ b, f a = Ok b) ∨
  mapM f l = Raise e ∧ ∃ a, a ∈ l ∧ f a = Raise e.
Proof.
  induction l as [|a l IH]; intros Hall.
  - left. split; [by exists [] |]. by intros a ?%elem_of_nil.
  - change (mapM f (a :: l)) with (b ← f a; k ← mapM f l; Ok (b :: k)).
    destruct (Hall a) as [[b Hb]|Ha]; [left | |].
    + rewrite Hb, bind_Ok.
      destruct IH as [[[k Hk] Hok]|[Hk (a' & Ha' & Hf)]].
      * intros a' Ha'. apply Hall. by right.
      * left. rewrite Hk, bind_Ok. split; [by eauto |].
        intros a' [->|Ha']%elem_of_cons; eauto.
      * right. rewrite Hk. split; [done |]. exists a'. split; [by right | done].
    + right. rewrite Ha. split; [done |]. exists a. split; [left | done].
Qed.

(** X9. Let each solution of the list be such that the attribute of the
    dict by its name, if there is one, is an object that cannot be iterated
    (a bound method such as [keys] or [update]); nothing is asked of other
    names.  Then the rendering raises [TypeError] exactly when some solution
    has no entry in [extra_configs] and bears the name of such an attribute;
    otherwise it yields a text. *)
Theorem X9_rendering_succeeds_iff (rt : runtime) (solutions : list string) :
  (∀ s, s ∈ solutions →
        py_getattr rt extra_configs s = None ∨
        py_getattr rt extra_configs s = Some VOpaque) →
  let is_method s :=
    entries_get extra_config_entries s = None ∧
    py_getattr rt extra_configs s = Some VOpaque in
  (cloudbuild_contents rt solutions = Raise TypeError ↔
     ∃ s, s ∈ solutions ∧ is_method s) ∧
  ((∃ text, cloudbuild_contents rt solutions = Ok text) ↔
     ∀ s, s ∈ solutions → ¬ is_method s).
Proof.
  intros Hrt is_method.
  assert (Hone : ∀ s, s ∈ solutions →
                      (∃ vs, variants_of rt s = Ok vs) ∧ ¬ is_method s ∨
                      variants_of rt s = Raise TypeError ∧ is_method s).
  { intros s Hs. destruct (entries_get extra_config_entries s) as [cfgs|] eqn:Hget.
    - left. split; [exists cfgs; by apply variants_of_configured |].
      unfold is_method. rewrite Hget. by intros [? _].
    - destruct (Hrt s Hs) as [Hattr|Hattr].
      + left. split; [exists []; by apply variants_of_missing |].
        unfold is_method. rewrite Hattr. by intros [_ ?].
      + right. split; [by apply variants_of_method | done]. }
  rewrite cloudbuild_contents_document.
  destruct (mapM_cases (variants_of rt) solutions TypeError)
    as [[[vss Hvss] Hok]|[Hraise (s & Hs & Hf)]].
  { intros s Hs. destruct (Hone s Hs) as [[? _]|[? _]]; auto. }
  - rewrite Hvss, bind_Ok. split.
    + split; [done |]. intros (s & Hs & Hm).
      destruct (Hok s Hs) as [vs Hvs].
      destruct (Hone s Hs) as [[_ Hn]|[Hr _]]; [done | congruence].
    + split; [|by eauto]. intros _ s Hs Hm.
      destruct (Hok s Hs) as [vs Hvs].
      destruct (Hone s Hs) as [[_ Hn]|[Hr _]]; [done | congruence].
  - rewrite Hraise. split.
    + split; [|done]. intros _. exists s. split; [done |].
      destruct (Hone s Hs) as [[[vs Hvs] _]|[_ Hm]]; [congruence | done].
    + split; [by intros (text & [=]) |]. intros Hnone. exfalso.
      apply (Hnone s Hs).
      destruct (Hone s Hs) as [[[vs Hvs] _]|[_ Hm]]; [congruence | done].
Qed.

Lemma X9_rendering_succeeds_iff_witness :
  (∀ s, s ∈ ["redis"; "update"] →
        py_getattr plain_runtime extra_configs s = None ∨
        py_getattr plain_runtime extra_configs s = Some VOpaque) ∧
  cloudbuild_contents plain_runtime ["redis"; "update"] = Raise TypeError.
Proof.
  assert (H : ∀ s, s ∈ ["redis"; "update"] →
                   py_getattr plain_runtime extra_configs s = None ∨
                   py_getattr plain_runtime extra_configs s = Some VOpaque).
  { intros s _. cbn. destruct (decide (s ∈ dict_methods)); [right | left]; reflexivity. }
  split; [exact H |].
  apply (X9_rendering_succeeds_iff plain_runtime ["redis"; "update"] H).
  exists "update". split; [apply list_elem_of_further, list_elem_of_here |].
  split; reflexivity.
Defined.

(** ** The ends of the text *)

Lemma is_empty_append (a b : string) : b ≠ "" → is_empty (a +:+ b) = false.
Proof. destruct a; [by destruct b | done]. Qed.

Lemma ends_clean_append (a b : string) : ends_clean b → ends_clean (a +:+ b).
Proof.
  intros [Hne Hb]. split; [by destruct a, b |].
  induction a as [|c a IH]; [done |].
  rewrite append_cons. cbn [rstrip]. rewrite IH, is_empty_append by done.
  by rewrite andb_false_r.
Qed.

Lemma rstrip_clean_tail (c : ascii) (b : string) :
  rstrip (String c b) = String c b → rstrip b = b.
Proof.
  cbn [rstrip]. destruct (is_space c && is_empty (rstrip b)); [done |].
  by intros [= ->].
Qed.

Lemma rstrip_nl (b : string) : ends_clean b → rstrip (b +:+ nl) = b.
Proof.
  intros [Hne Hb]. induction b as [|c b IH]; [done |].
  rewrite append_cons. pose proof (rstrip_clean_tail c b Hb) as Hb'.
  destruct b as [|c' b].
  - change (rstrip (String c ("" +:+ nl)))
      with (if is_space c && true then "" else String c "").
    cbn [rstrip] in Hb. by destruct (is_space c).
  - cbn [rstrip]. rewrite IH by done. cbn [is_empty]. by rewrite andb_false_r.
Qed.

Lemma ends_clean_join (pieces : list string) :
  pieces ≠ [] → Forall ends_clean pieces → ends_clean (join pieces).
Proof.
  induction 2 as [|p pieces Hp Hps IH]; [done |].
  rewrite join_cons. destruct pieces as [|q pieces].
  - by rewrite append_nil_r.
  - apply ends_clean_append. by apply IH.
Qed.

Lemma ends_clean_step (solutions : list string) (vss : list (list variant))
    (st : step) :
  st ∈ document solutions vss → ends_clean (step_text st).
Proof.
  assert (Hmake : ∀ s target, ends_clean target → ends_clean (make_in s target)).
  { intros s target Ht. unfold make_in. by repeat apply ends_clean_append. }
  assert (Hlit : ∀ target, target = "build" ∨ target = "verify" → ends_clean target).
  { intros target [->| ->]; by split. }
  intros Hst. unfold step_text. repeat apply ends_clean_append.
  unfold document in Hst. rewrite !elem_of_app in Hst.
  destruct Hst as [Hst|[Hst|Hst]].
  - unfold setup_steps in Hst. rewrite !elem_of_cons, elem_of_nil in Hst.
    destruct Hst as [->|[->|[->|[->|[]]]]]; by split.
  - apply list_elem_of_fmap in Hst as (s & -> & _). cbn [step_rest].
    apply ends_clean_append, Hmake, Hlit. by left.
  - destruct (verify_phase_steps _ _ _ Hst) as (s & _ & [->|[v ->]]);
      cbn [step_rest]; repeat apply ends_clean_append; apply Hlit; by right.
Qed.

(** X10. A rendered text begins with the header of the template and ends
    with exactly one new line: what stands before that new line is not empty
    and does not end in white space. *)
Theorem X10_text_ends (rt : runtime) (solutions : list string) (text : string) :
  cloudbuild_contents rt solutions = Ok text →
  ∃ body rest,
    text = body +:+ nl ∧ body = document_header +:+ rest ∧
    ends_clean body ∧ rstrip text = body.
Proof.
  intros (vss & _ & _ & ->)%cloudbuild_contents_Ok.
  assert (Hbody : ends_clean (document_text (document solutions vss))).
  { unfold document_text. apply ends_clean_append, ends_clean_join.
    - unfold document, setup_steps. by rewrite !fmap_app, !fmap_cons.
    - apply Forall_fmap, Forall_forall. intros st Hst.
      do 2 apply ends_clean_append. by eapply ends_clean_step. }
  eexists _, _. split_and!; [reflexivity | reflexivity | done |].
  by apply rstrip_nl.
Qed.

Lemma X10_text_ends_witness :
  cloudbuild_contents plain_runtime ["redis"]
  = Ok (document_text (document ["redis"] [[]]) +:+ nl) ∧
  ∃ body, rstrip (document_text (document ["redis"] [[]]) +:+ nl) = body ∧
          ends_clean body.
Proof.
  assert (H : cloudbuild_contents plain_runtime ["redis"]
              = Ok (document_text (document ["redis"] [[]]) +:+ nl))
    by (vm_compute; reflexivity).
  split; [exact H |].
  destruct (X10_text_ends plain_runtime _ _ H) as (body & rest & _ & _ & Hc & Hr).
  exists body. exact (conj Hr Hc).
Defined.

(** ** A directory that changed *)

Lemma length_append (a b : string) :
  String.length (a +:+ b) = String.length a + String.length b.
Proof.
  induction a as [|c a IH]; [done |]. rewrite append_cons. cbn [String.length].
  by rewrite IH.
Qed.

Lemma solutions_added (entries1 entries2 : list (string * bool)) (d : string) :
  d ∉ skiplist → entries2 ≡ₚ (d, true) :: entries1 →
  solutions_to_build entries2 ≡ₚ d :: solutions_to_build entries1.
Proof.
  intros Hd Hp. unfold solutions_to_build. rewrite !select_filter. unfold listdir.
  rewrite !merge_sort_Permutation, Hp.
  rewrite filter_cons_True by done. rewrite fmap_cons. cbn [fst].
  by rewrite filter_cons_True.
Qed.

Section sizes.
Variable size : string → nat.
Hypothesis size_append : ∀ a b, size (a +:+ b) = size a + size b.
Hypothesis size_id : 0 < size "- id: ".

Lemma size_nil : size "" = 0.
Proof.
  pose proof (size_append "" "") as H. change ("" +:+ "") with "" in H. lia.
Qed.

Lemma size_join_steps (steps : list step) :
  size (join ((λ st, nl +:+ nl +:+ step_text st) <$> steps))
  = sum_list_with (step_size size) steps.
Proof.
  induction steps as [|st steps IH]; [apply size_nil |].
  rewrite fmap_cons, join_cons, size_append, IH. reflexivity.
Qed.

Lemma size_phases (rt : runtime) (solutions : list string)
    (vss : list (list variant)) :
  mapM (variants_of rt) solutions = Ok vss →
  sum_list_with (step_size size)
    ((Build <$> solutions) ++ concat (zip_with verify_block solutions vss))
  = sum_list_with (solution_size size rt) solutions.
Proof.
  revert vss. induction solutions as [|s solutions IH]; intros vss.
  - by intros [= <-].
  - change (mapM (variants_of rt) (s :: solutions))
      with (vs ← variants_of rt s; k ← mapM (variants_of rt) solutions; Ok (vs :: k)).
    destruct (variants_of rt s) as [vs|e] eqn:Hs; [|done]. rewrite bind_Ok.
    destruct (mapM (variants_of rt) solutions) as [k|e]; [|done]. rewrite bind_Ok.
    intros [= <-]. specialize (IH k eq_refl).
    rewrite sum_list_with_app in IH.
    rewrite fmap_cons. cbn [zip_with concat].
    rewrite sum_list_with_app. cbn [sum_list_with]. rewrite sum_list_with_app.
    unfold solution_size at 1. rewrite Hs. cbn [sum_list_with]. lia.
Qed.

(** The size of a rendered text: the preamble, then every solution for
    itself, then the new line. *)
Lemma size_cloudbuild_contents (rt : runtime) (solutions : list string)
    (text : string) :
  cloudbuild_contents rt solutions = Ok text →
  size text
  = size (document_text setup_steps) +
    sum_list_with (solution_size size rt) solutions + size nl.
Proof.
  intros (vss & Hvss & _ & ->)%cloudbuild_contents_Ok.
  unfold document_text, document.
  rewrite !size_append, !size_join_steps, sum_list_with_app.
  rewrite (size_phases rt solutions vss Hvss). cbn [sum_list_with]. lia.
Qed.

Lemma solution_size_pos (rt : runtime) (solution : string) (vs : list variant) :
  variants_of rt solution = Ok vs → 0 < solution_size size rt solution.
Proof.
  intros Hs. unfold solution_size. rewrite Hs. cbn [sum_list_with].
  unfold step_size at 1, step_text. rewrite !size_append. lia.
Qed.

(** A directory more, a larger text. *)
Lemma size_directory_added (rt : runtime)
    (entries1 entries2 : list (string * bool)) (d : string) (text1 text2 : string) :
  d ∉ skiplist →
  entries2 ≡ₚ (d, true) :: entries1 →
  cloudbuild_contents rt (solutions_to_build entries1) = Ok text1 →
  cloudbuild_contents rt (solutions_to_build entries2) = Ok text2 →
  size text1 < size text2.
Proof.
  intros Hd Hp H1 H2.
  rewrite (size_cloudbuild_contents rt _ _ H1).
  rewrite (size_cloudbuild_contents rt _ _ H2).
  rewrite (solutions_added entries1 entries2 d Hd Hp). cbn [sum_list_with].
  apply cloudbuild_contents_Ok in H2 as (vss & Hvss & _).
  assert (Hin : d ∈ solutions_to_build entries2)
    by (rewrite (solutions_added entries1 entries2 d Hd Hp); left).
  apply list_elem_of_lookup in Hin as [i Hi].
  destruct (mapM_Ok_lookup _ _ _ _ _ Hvss Hi) as (vs & _ & Hvs).
  pose proof (solution_size_pos rt d vs Hvs). lia.
Qed.

End sizes.

(** A file that holds a text of another payload is not up to date, when it
    can be read at all. *)
Lemma verify_other_payload (rt : runtime) (fs : filesystem)
    (on_disk text : string) :
  rendered rt fs = Ok text →
  files fs !! CLOUDBUILD_CONFIG = Some on_disk →
  payload on_disk ≠ payload text →
  out_status (main rt true fs)
  = if may_read rt CLOUDBUILD_CONFIG
    then if valid_utf8 on_disk then SystemExit 1 else Uncaught UnicodeDecodeError
    else Uncaught OSError.
Proof.
  intros Hr Hf Hne. destruct (main_verify rt fs text Hr) as (_ & -> & _).
  unfold verify_cloudbuild, read_text. rewrite Hf.
  destruct (may_read rt CLOUDBUILD_CONFIG); [|done].
  destruct (valid_utf8 on_disk); [|done].
  rewrite bind_Ok, bool_decide_eq_false_2; [done |].
  intros H. apply Hne. by rewrite <- H, payload_universal_newlines.
Qed.

(** X6. Verify mode notices a sub-directory that was added or removed since
    the file was written.  When the listing of [k8s] gains one directory
    that is not skip-listed, and both listings render, the new text is
    longer than the old one; so verify mode exits with 1 on the new listing
    with the old file, and on the old listing with the new file: with the
    verdict that the file is not up to date where the file can be opened and
    decoded, with the exception of [open] or of [read] where it cannot. *)
Theorem X6_directory_change_detected (rt : runtime)
    (entries1 entries2 : list (string * bool)) (d : string)
    (fls : gmap string string) (text1 text2 : string) :
  d ∉ skiplist →
  entries2 ≡ₚ (d, true) :: entries1 →
  cloudbuild_contents rt (solutions_to_build entries1) = Ok text1 →
  cloudbuild_contents rt (solutions_to_build entries2) = Ok text2 →
  String.length text1 < String.length text2 ∧
  out_status (main rt true {| k8s := Some entries2;
                              files := <[CLOUDBUILD_CONFIG := text1]> fls |})
    = (if may_read rt CLOUDBUILD_CONFIG
       then if valid_utf8 text1 then SystemExit 1 else Uncaught UnicodeDecodeError
       else Uncaught OSError) ∧
  out_status (main rt true {| k8s := Some entries1;
                              files := <[CLOUDBUILD_CONFIG := text2]> fls |})
    = (if may_read rt CLOUDBUILD_CONFIG
       then if valid_utf8 text2 then SystemExit 1 else Uncaught UnicodeDecodeError
       else Uncaught OSError) ∧
  exit_code (out_status (main rt true
     {| k8s := Some entries2; files := <[CLOUDBUILD_CONFIG := text1]> fls |})) = 1%Z ∧
  exit_code (out_status (main rt true
     {| k8s := Some entries1; files := <[CLOUDBUILD_CONFIG := text2]> fls |})) = 1%Z.
Proof.
  intros Hd Hp H1 H2.
  assert (Hlen : String.length text1 < String.length text2).
  { apply (size_directory_added String.length length_append) with rt entries1 entries2 d;
      [vm_compute; lia | done..]. }
  assert (Hpay : payload text1 < payload text2).
  { apply (size_directory_added payload payload_append) with rt entries1 entries2 d;
      [vm_compute; lia | done..]. }
  set (stale := {| k8s := Some entries2;
                   files := <[CLOUDBUILD_CONFIG := text1]> fls |}).
  set (ahead := {| k8s := Some entries1;
                   files := <[CLOUDBUILD_CONFIG := text2]> fls |}).
  assert (Hs : out_status (main rt true stale)
               = if may_read rt CLOUDBUILD_CONFIG
                 then if valid_utf8 text1 then SystemExit 1
                      else Uncaught UnicodeDecodeError
                 else Uncaught OSError).
  { apply verify_other_payload with text2; [done | apply lookup_insert_eq | lia]. }
  assert (Ha : out_status (main rt true ahead)
               = if may_read rt CLOUDBUILD_CONFIG
                 then if valid_utf8 text2 then SystemExit 1
                      else Uncaught UnicodeDecodeError
                 else Uncaught OSError).
  { apply verify_other_payload with text1; [done | apply lookup_insert_eq | lia]. }
  split_and!; [done | done | done | |].
  - rewrite Hs. by destruct (may_read rt CLOUDBUILD_CONFIG), (valid_utf8 text1).
  - rewrite Ha. by destruct (may_read rt CLOUDBUILD_CONFIG), (valid_utf8 text2).
Qed.

Lemma X6_directory_change_detected_witness :
  ("nginx" ∉ skiplist) ∧
  [("redis", true); ("nginx", true)] ≡ₚ [("nginx", true); ("redis", true)] ∧
  cloudbuild_contents plain_runtime (solutions_to_build [("redis", true)])
    = Ok (document_text (document ["redis"] [[]]) +:+ nl) ∧
  cloudbuild_contents plain_runtime
    (solutions_to_build [("redis", true); ("nginx", true)])
    = Ok (document_text (document ["nginx"; "redis"] [[]; []]) +:+ nl) ∧
  String.length (document_text (document ["redis"] [[]]) +:+ nl)
    < String.length (document_text (document ["nginx"; "redis"] [[]; []]) +:+ nl).
Proof.
  assert (Hd : "nginx" ∉ skiplist)
    by (apply (bool_decide_unpack _); vm_compute; exact I).
  assert (Hp : [("redis", true); ("nginx", true)]
               ≡ₚ [("nginx", true); ("redis", true)]) by apply perm_swap.
  assert (H1 : cloudbuild_contents plain_runtime
                 (solutions_to_build [("redis", true)])
               = Ok (document_text (document ["redis"] [[]]) +:+ nl))
    by (vm_compute; reflexivity).
  assert (H2 : cloudbuild_contents plain_runtime
                 (solutions_to_build [("redis", true); ("nginx", true)])
               = Ok (document_text (document ["nginx"; "redis"] [[]; []]) +:+ nl))
    by (vm_compute; reflexivity).
  split_and!; [exact Hd | exact Hp | exact H1 | exact H2 |].
  exact (proj1 (X6_directory_change_detected plain_runtime _ _ "nginx" ∅ _ _
                  Hd Hp H1 H2)).
Defined.

(** ** What a run depends on *)

(** X11. A run reads the listing of [k8s] and, in verify mode, the file
    [cloudbuild.yaml], and nothing else.  The rendered text does not depend
    on the files.  Two file systems with the same listing give the same
    printed lines and the same status: in write mode whatever their files
    are, in verify mode when they agree on [cloudbuild.yaml].  And a write
    mode that runs to its end leaves the same text in [cloudbuild.yaml] on
    both. *)
Theorem X11_reads_listing_and_output_only (rt : runtime) (verify_only : bool)
    (entries : option (list (string * bool))) (fls1 fls2 : gmap string string) :
  let fs1 := {| k8s := entries; files := fls1 |} in
  let fs2 := {| k8s := entries; files := fls2 |} in
  rendered rt fs1 = rendered rt fs2 ∧
  (verify_only = false ∨ fls1 !! CLOUDBUILD_CONFIG = fls2 !! CLOUDBUILD_CONFIG →
   out_stdout (main rt verify_only fs1) = out_stdout (main rt verify_only fs2) ∧
   out_status (main rt verify_only fs1) = out_status (main rt verify_only fs2)) ∧
  (out_status (main rt false fs1) = Returned →
   files (out_fs (main rt false fs1)) !! CLOUDBUILD_CONFIG
   = files (out_fs (main rt false fs2)) !! CLOUDBUILD_CONFIG).
Proof.
  intros fs1 fs2. split; [done |]. split.
  - intros Hsame. unfold main, fs1, fs2. cbn [k8s].
    destruct entries as [entries|]; [|done]. cbv zeta.
    destruct (cloudbuild_contents rt _) as [text|e]; [|done].
    destruct verify_only.
    + destruct Hsame as [?|Hsame]; [done |].
      assert (Hv : verify_cloudbuild rt {| k8s := Some entries; files := fls1 |} text
                   = verify_cloudbuild rt {| k8s := Some entries; files := fls2 |} text)
        by (unfold verify_cloudbuild; cbn [files]; by rewrite Hsame).
      rewrite Hv. clear Hv. by destruct (verify_cloudbuild rt _ text) as [[|]|e].
    + destruct (may_write rt CLOUDBUILD_CONFIG); [|done].
      by destruct (valid_utf8 text).
  - destruct (rendered rt fs1) as [text|e] eqn:Hr.
    + assert (Hr' : rendered rt fs2 = Ok text) by done.
      destruct (main_write rt fs1 text Hr) as (-> & ->).
      destruct (main_write rt fs2 text Hr') as (-> & _).
      destruct (may_write rt CLOUDBUILD_CONFIG); [|done].
      intros _. cbn [write_cloudbuild files]. by rewrite !lookup_insert_eq.
    + destruct (main_raise rt false fs1 e Hr) as (_ & ->). done.
Qed.

Lemma solutions_sorted (entries : list (string * bool)) :
  StronglySorted String.le (solutions_to_build entries).
Proof.
  unfold solutions_to_build. rewrite select_filter.
  apply StronglySorted_filter, (StronglySorted_merge_sort _).
Qed.

(** X12. Plain files and skip-listed directories do not count: a listing
    that gains a plain file, or a directory whose name is in the skip list,
    selects the same solutions and renders the same text, so a file that was
    up to date stays so. *)
Theorem X12_ignored_entries (rt : runtime) (entries1 entries2 : list (string * bool))
    (name : string) (is_dir : bool) (fls : gmap string string) :
  is_dir = false ∨ name ∈ skiplist →
  entries2 ≡ₚ (name, is_dir) :: entries1 →
  solutions_to_build entries2 = solutions_to_build entries1 ∧
  cloudbuild_contents rt (solutions_to_build entries2)
    = cloudbuild_contents rt (solutions_to_build entries1) ∧
  out_status (main rt true {| k8s := Some entries2; files := fls |})
    = out_status (main rt true {| k8s := Some entries1; files := fls |}).
Proof.
  intros Hignored Hp.
  assert (Hs : solutions_to_build entries2 = solutions_to_build entries1).
  { apply (StronglySorted_unique String.le).
    - apply solutions_sorted.
    - apply solutions_sorted.
    - unfold solutions_to_build. rewrite !select_filter. unfold listdir.
      rewrite !merge_sort_Permutation, Hp. rewrite filter_cons.
      destruct (decide ((name, is_dir).2 = true)) as [Hd|Hd]; [|done].
      rewrite fmap_cons. cbn [fst]. rewrite filter_cons_False; [done |].
      destruct Hignored as [->|Hin]; [done | by intros []]. }
  split; [done |]. split; [by rewrite Hs |].
  unfold main. cbn [k8s]. cbv zeta. unfold solutions_to_build in Hs. rewrite Hs.
  destruct (cloudbuild_contents rt _) as [text|e]; [|done].
  unfold verify_cloudbuild. cbn [files].
  destruct (fls !! CLOUDBUILD_CONFIG) as [on_disk|]; [|done].
  destruct (read_text rt CLOUDBUILD_CONFIG on_disk) as [read|e]; [|done].
  rewrite bind_Ok. by case_bool_decide.
Qed.

Lemma X12_ignored_entries_witness :
  ("spark-operator" ∈ skiplist) ∧
  [("redis", true); ("spark-operator", true)]
    ≡ₚ [("spark-operator", true); ("redis", true)] ∧
  solutions_to_build [("redis", true); ("spark-operator", true)]
    = solutions_to_build [("redis", true)].
Proof.
  assert (Hin : "spark-operator" ∈ skiplist)
    by (apply (bool_decide_unpack _); vm_compute; exact I).
  assert (Hp : [("redis", true); ("spark-operator", true)]
               ≡ₚ [("spark-operator", true); ("redis", true)]) by apply perm_swap.
  split_and!; [exact Hin | exact Hp |].
  exact (proj1 (X12_ignored_entries plain_runtime _ _ _ true ∅ (or_intror Hin) Hp)).
Defined.

(** ** The variants of every solution *)

(** X13. Let each solution of the list be such that the attribute of the
    dict by its name, if there is one, cannot be iterated; nothing is asked
    of other names.  Then a rendered document gives every solution exactly
    the variants of its entry in [extra_configs], and none to a solution
    without an entry. *)
Theorem X13_variants_are_the_entries (rt : runtime) (solutions : list string)
    (text : string) :
  (∀ s, s ∈ solutions →
        py_getattr rt extra_configs s = None ∨
        py_getattr rt extra_configs s = Some VOpaque) →
  cloudbuild_contents rt solutions = Ok text →
  text = document_text
           (document solutions
              ((λ s, default [] (entries_get extra_config_entries s)) <$> solutions))
         +:+ nl.
Proof.
  intros Hrt (vss & Hvss & _ & ->)%cloudbuild_contents_Ok.
  do 3 f_equal. clear -Hrt Hvss. revert vss Hvss.
  induction solutions as [|s solutions IH]; intros vss.
  - by intros [= <-].
  - change (mapM (variants_of rt) (s :: solutions))
      with (vs ← variants_of rt s; k ← mapM (variants_of rt) solutions; Ok (vs :: k)).
    destruct (variants_of rt s) as [vs|e] eqn:Hs; [|done]. rewrite bind_Ok.
    destruct (mapM (variants_of rt) solutions) as [k|e]; [|done]. rewrite bind_Ok.
    intros [= <-]. rewrite fmap_cons, <- (IH (λ s' Hs', Hrt s' (list_elem_of_further _ _ _ Hs')) k eq_refl).
    f_equal.
    destruct (entries_get extra_config_entries s) as [cfgs|] eqn:Hget.
    + rewrite (variants_of_configured rt s cfgs Hget) in Hs. by injection Hs.
    + destruct (Hrt s (list_elem_of_here _ _)) as [Hattr|Hattr].
      * rewrite (variants_of_missing rt s Hget Hattr) in Hs. by injection Hs.
      * by rewrite (variants_of_method rt s Hget Hattr) in Hs.
Qed.

Lemma X13_variants_are_the_entries_witness :
  (∀ s, s ∈ ["redis"; "wordpress"] →
        py_getattr plain_runtime extra_configs s = None ∨
        py_getattr plain_runtime extra_configs s = Some VOpaque) ∧
  cloudbuild_contents plain_runtime ["redis"; "wordpress"]
  = Ok (document_text
          (document ["redis"; "wordpress"]
             ((λ s, default [] (entries_get extra_config_entries s))
                <$> ["redis"; "wordpress"])) +:+ nl).
Proof.
  assert (H : ∀ s, s ∈ ["redis"; "wordpress"] →
                   py_getattr plain_runtime extra_configs s = None ∨
                   py_getattr plain_runtime extra_configs s = Some VOpaque).
  { intros s _. cbn. destruct (decide (s ∈ dict_methods)); [right | left]; reflexivity. }
  split; [exact H |].
  destruct (cloudbuild_contents plain_runtime ["redis"; "wordpress"])
    as [text|e] eqn:Hr; [| vm_compute in Hr; discriminate Hr].
  f_equal.
  exact (X13_variants_are_the_entries plain_runtime _ text H Hr).
Defined.

(** A solution whose name is an attribute of the dict that can be iterated
    is outside X9 and X13: a directory named [__doc__] makes the template
    loop over the characters of that text, and the document gets one variant
    step, with an empty name and no variable, for each of them. *)
Example docstring_variants :
  cloudbuild_contents (documented_runtime "ab") ["__doc__"]
  = Ok (document_text
          (document ["__doc__"]
             [[ {| variant_name := ""; variant_env_vars := [] |};
                {| variant_name := ""; variant_env_vars := [] |} ]]) +:+ nl).
Proof. vm_compute. reflexivity. Qed.
